(** * useForm: a shallow embedding of [src/hooks/useForm.ts]

    The hook keeps one [FormState] record in a React state cell and exposes
    callbacks that enqueue updater functions on it.  The embedding follows
    the hook body: JavaScript objects used as maps become [gmap string _],
    [try]/[catch] becomes a case analysis on a completion record, and the
    callbacks become computations in a small state-and-exception monad
    whose state is the React state cell plus a log of the calls made to the
    external submit callback. *)

From Stdlib Require Import NArith Ascii DecimalString PrimFloat.
From stdpp Require Import base option list strings gmap fin_maps.

Local Open Scope string_scope.

(** ** JavaScript values *)

(** Field values have type [any] in the source.  The constructors are the
    primitive values a form control can produce; a JavaScript number is an
    IEEE 754 double. *)
Inductive JsValue : Type :=
  | JUndefined
  | JNull
  | JBool (b : bool)
  | JNumber (n : float)
  | JString (s : string).

(** [T extends Record<string, any>] *)
Abbreviation Values := (gmap string JsValue).

(** [Partial<Record<keyof T, string>>]: a key may be absent, or present and
    holding [undefined] ([Some None]), or present and holding a message. *)
Abbreviation Errors := (gmap string (option string)).

(** [Partial<Record<keyof T, boolean>>] *)
Abbreviation Touched := (gmap string bool).

(** ** The schema engine's contract *)

(** One segment of a Zod issue path: [(string | number)[]]. *)
Inductive PathSegment : Type :=
  | SegKey (k : string)
  | SegIndex (i : N).

Record ZodIssue : Type := mkIssue {
  path : list PathSegment;
  message : string;
}.

(** Whatever a JavaScript [throw] (or a rejected promise) can carry, split
    by the two [instanceof] tests the hook performs. *)
Inductive Thrown : Type :=
  | ThrownZodError (errors : list ZodIssue) (msg : string)
      (* instanceof z.ZodError, hence also instanceof Error *)
  | ThrownError (msg : string)
      (* instanceof Error, but not a ZodError *)
  | ThrownValue (v : JsValue).
      (* anything else *)

(** [error instanceof z.ZodError] *)
Definition instanceof_ZodError (error : Thrown) : bool :=
  match error with
  | ThrownZodError _ _ => true
  | _ => false
  end.

(** [error instanceof Error] *)
Definition instanceof_Error (error : Thrown) : bool :=
  match error with
  | ThrownZodError _ _ | ThrownError _ => true
  | ThrownValue _ => false
  end.

(** [error.errors], read only once [error] is known to be a ZodError. *)
Definition error_errors (error : Thrown) : list ZodIssue :=
  match error with
  | ThrownZodError errors _ => errors
  | _ => []
  end.

(** [error.message], read only once [error] is known to be an Error. *)
Definition error_message (error : Thrown) : string :=
  match error with
  | ThrownZodError _ msg | ThrownError msg => msg
  | ThrownValue _ => ""
  end.

Inductive Completion (A : Type) : Type :=
  | Normal (a : A)
  | Throw (e : Thrown).
Arguments Normal {A} a.
Arguments Throw {A} e.

(** [schema.parse(values)]: returns the parsed object or throws. *)
Definition ZodSchema : Type := Values → Completion Values.

(** [onSubmit(values)]: the way the returned promise settles (or the
    exception thrown by a synchronous callback). *)
Definition SubmitCallback : Type := Values → Completion unit.

(** ** Data model ([types/forms.ts]) *)

(** [submitCount] only ever holds 0 or the successor of a count, values on
    which the arithmetic of doubles is exact (below 2^53), so it is a
    natural number here. *)

Record FormState : Type := mkFormState {
  values : Values;
  errors : Errors;
  touched : Touched;
  isSubmitting : bool;
  isValid : bool;
  submitCount : N;
  submitError : option string;
}.

Record UseFormConfig : Type := mkConfig {
  initialValues : Values;
  validationSchema : option ZodSchema;
  onSubmit : option SubmitCallback;
}.

(** The object returned by [validateWithSchema]. *)
Record ValidationResult : Type := mkValidation {
  vr_isValid : bool;
  fieldErrors : Errors;
}.

(** ** JavaScript helpers *)

(** Truthiness of a string ([!!s]): only the empty string is falsy. *)
Definition truthy_string (s : string) : bool :=
  negb (String.eqb s "").

(** Truthiness of an entry of the errors object. *)
Definition truthy_error (e : option string) : bool :=
  match e with
  | Some s => truthy_string s
  | None => false
  end.

(** Truthiness of [err.path[0]], which is a string, a number or
    [undefined]. *)
Definition truthy_segment (p : option PathSegment) : bool :=
  match p with
  | Some (SegKey k) => truthy_string k
  | Some (SegIndex i) => negb (N.eqb i 0)
  | None => false
  end.

(** Property-key conversion: a number used as a key is its decimal
    string. *)
Definition property_key (p : PathSegment) : string :=
  match p with
  | SegKey k => k
  | SegIndex i => NilZero.string_of_uint (N.to_uint i)
  end.

(** [seg === field] for a field name that is a string. *)
Definition segment_is (field : string) (p : option PathSegment) : bool :=
  match p with
  | Some (SegKey k) => String.eqb k field
  | _ => false
  end.

(** [x || undefined] on a possibly missing string. *)
Definition or_undefined (x : option string) : option string :=
  match x with
  | Some s => if truthy_string s then Some s else None
  | None => None
  end.

(** [Object.values(o).some(p)] *)
Definition some_value {A} (p : A → bool) (o : gmap string A) : bool :=
  existsb p (map snd (map_to_list o)).

(** [Object.keys(o)] *)
Definition object_keys {A} (o : gmap string A) : list string :=
  map fst (map_to_list o).

(** [try { body } catch (error) { handler }] on pure code. *)
Definition try_catch {A} (body : Completion A) (handler : Thrown → Completion A)
  : Completion A :=
  match body with
  | Normal a => Normal a
  | Throw e => handler e
  end.

Definition cbind {A B} (c : Completion A) (k : A → Completion B) : Completion B :=
  match c with
  | Normal a => k a
  | Throw e => Throw e
  end.

(** ** The monad of the callbacks *)

(** What a callback can observe and change: the React state cell, the
    arguments of the calls made so far to the external submit callback, and
    the successive contents written to the state cell (latest last). *)
Record World : Type := mkWorld {
  form : FormState;
  submitted : list Values;
  written : list FormState;
}.

Definition Eff (A : Type) : Type := World → Completion A * World.

#[global] Instance eff_ret : MRet Eff := λ A a w, (Normal a, w).

#[global] Instance eff_bind : MBind Eff := λ A B k m w,
  match m w with
  | (Normal a, w') => k a w'
  | (Throw e, w') => (Throw e, w')
  end.

(** [try { body } catch (error) { handler }] around effectful code: the
    state changes made by [body] before it threw are kept. *)
Definition try_catch_eff {A} (body : Eff A) (handler : Thrown → Eff A) : Eff A :=
  λ w, match body w with
       | (Normal a, w') => (Normal a, w')
       | (Throw e, w') => handler e w'
       end.

(** [setFormState(updater)].  Updaters are applied in the order in which
    they are enqueued; an updater that throws leaves the cell as it was. *)
Definition setFormState (updater : FormState → Completion FormState) : Eff unit :=
  λ w, match updater (form w) with
       | Normal s => (Normal tt, mkWorld s (submitted w) (written w ++ [s]))
       | Throw e => (Throw e, w)
       end.

(** [await callback(v)]: the call is recorded, and the computation goes on
    with the way the promise settled. *)
Definition await_call (callback : SubmitCallback) (v : Values) : Eff unit :=
  λ w, (callback v, mkWorld (form w) (submitted w ++ [v]) (written w)).

Definition exec {A} (m : Eff A) (w : World) : World := snd (m w).
Definition outcome {A} (m : Eff A) (w : World) : Completion A := fst (m w).

(** ** The hook body *)

(** [useState<FormState<T>>({...})]: the content of the state cell when the
    component mounts. *)
Definition useState_initial (initialValues : Values) : FormState :=
  {| values := initialValues;
     errors := ∅;
     touched := ∅;
     isSubmitting := false;
     isValid := true;
     submitCount := 0;
     submitError := None |}.

(** A pure computation used inside a callback. *)
Definition lift {A} (c : Completion A) : Eff A := λ w, (c, w).

(** [React.ChangeEvent]: the four properties of [e.target] the hook reads. *)
Record ChangeEvent : Type := mkChangeEvent {
  target_name : string;
  target_value : string;
  target_type : string;
  target_checked : bool;
}.

Section useForm.

(** The global [Number(...)] conversion of a string to a double. *)
Variable Number : string → float.

(** What the closures of one render see: [schemaRef.current] and
    [onSubmitRef.current] (assigned on every render), the [initialValues]
    destructured from this render's [config], and this render's
    [formState]. *)
Variable schemaRef_current : option ZodSchema.
Variable onSubmitRef_current : option SubmitCallback.
Variable initialValues : Values.
Variable formState : FormState.

(** The body of the callback given to [error.errors.forEach].  The
    assignment [fieldErrors[path] = err.message] creates or overwrites an
    own property, except under the key "__proto__": there it reaches the
    accessor inherited from [Object.prototype], whose setter ignores a value
    that is a string, so nothing is recorded. *)
Definition record_issue (fieldErrors : Errors) (err : ZodIssue) : Errors :=
  let path0 := head (path err) in
  if truthy_segment path0 then
    match path0 with
    | Some p =>
        if String.eqb (property_key p) "__proto__" then fieldErrors
        else <[property_key p := Some (message err)]> fieldErrors
    | None => fieldErrors
    end
  else fieldErrors.

Definition validateWithSchema (values : Values) : Completion ValidationResult :=
  match schemaRef_current with
  | None => Normal {| vr_isValid := true; fieldErrors := ∅ |}
  | Some schema =>
      try_catch
        (cbind (schema values) (λ _,
           Normal {| vr_isValid := true; fieldErrors := ∅ |}))
        (λ error,
           if instanceof_ZodError error then
             Normal {| vr_isValid := false;
                       fieldErrors := foldl record_issue ∅ (error_errors error) |}
           else Normal {| vr_isValid := false; fieldErrors := ∅ |})
  end.

(** [(prev) => ({ ...prev, errors: fieldErrors, isValid })] *)
Definition store_validation (r : ValidationResult) (prev : FormState) : FormState :=
  {| values := values prev;
     errors := fieldErrors r;
     touched := touched prev;
     isSubmitting := isSubmitting prev;
     isValid := vr_isValid r;
     submitCount := submitCount prev;
     submitError := submitError prev |}.

Definition validateForm : Eff bool :=
  r ← lift (validateWithSchema (values formState));
  setFormState (λ prev, Normal (store_validation r prev));;
  mret (vr_isValid r).

(** The updater of [setFieldValue].  Inside the [try] statement [Some s]
    stands for [return s] and [None] for leaving the statement without
    returning, which leads to the final [return]. *)
Definition setFieldValue_updater (field : string) (value : JsValue)
    (prev : FormState) : Completion FormState :=
  let newValues := <[field := value]> (values prev) in
  cbind
    match schemaRef_current with
    | Some schema =>
        try_catch
          (cbind (schema (<[field := value]> (values prev))) (λ _,
             let updatedErrors := <[field := None]> (errors prev) in
             let hasErrors := some_value truthy_error updatedErrors in
             Normal (Some
               {| values := newValues;
                  errors := updatedErrors;
                  touched := touched prev;
                  isSubmitting := isSubmitting prev;
                  isValid := negb hasErrors;
                  submitCount := submitCount prev;
                  submitError := submitError prev |})))
          (λ error,
             if instanceof_ZodError error then
                 let fieldError :=
                   or_undefined
                     (message <$>
                        List.find (λ err, segment_is field (head (path err)))
                          (error_errors error)) in
                 let updatedErrors := <[field := fieldError]> (errors prev) in
                 Normal (Some
                   {| values := newValues;
                      errors := updatedErrors;
                      touched := touched prev;
                      isSubmitting := isSubmitting prev;
                      isValid := false;
                      submitCount := submitCount prev;
                      submitError := submitError prev |})
             else Normal None)
    | None => Normal None
    end
    (λ returned,
       match returned with
       | Some s => Normal s
       | None =>
           Normal
             {| values := newValues;
                errors := errors prev;
                touched := touched prev;
                isSubmitting := isSubmitting prev;
                isValid := isValid prev;
                submitCount := submitCount prev;
                submitError := submitError prev |}
       end).

Definition setFieldValue (field : string) (value : JsValue) : Eff unit :=
  setFormState (setFieldValue_updater field value).

Definition handleChange (e : ChangeEvent) : Eff unit :=
  let name := target_name e in
  let value := target_value e in
  let type := target_type e in
  let fieldValue :=
    if String.eqb type "checkbox" then JBool (target_checked e)
    else if String.eqb type "number" then
      (if String.eqb value "" then JString "" else JNumber (Number value))
    else JString value in
  setFieldValue name fieldValue.

(** [isTouched] is [None] when the optional argument is omitted. *)
Definition setFieldTouched (field : string) (isTouched : option bool) : Eff unit :=
  setFormState (λ prev, Normal
    {| values := values prev;
       errors := errors prev;
       touched := <[field := default true isTouched]> (touched prev);
       isSubmitting := isSubmitting prev;
       isValid := isValid prev;
       submitCount := submitCount prev;
       submitError := submitError prev |}).

Definition handleBlur (name : string) : Eff unit :=
  setFieldTouched name (Some true).

(** [{ ...prev.values, ...values }]: the keys of the argument win. *)
Definition setValues (values0 : Values) : Eff unit :=
  setFormState (λ prev, Normal
    {| values := values0 ∪ values prev;
       errors := errors prev;
       touched := touched prev;
       isSubmitting := isSubmitting prev;
       isValid := isValid prev;
       submitCount := submitCount prev;
       submitError := submitError prev |}).

Definition resetForm : Eff unit :=
  setFormState (λ _, Normal
    {| values := initialValues;
       errors := ∅;
       touched := ∅;
       isSubmitting := false;
       isValid := true;
       submitCount := 0;
       submitError := None |}).

(** [error instanceof Error ? error.message : "Form submission failed"] *)
Definition submit_error_text (error : Thrown) : string :=
  if instanceof_Error error then error_message error
  else "Form submission failed".

(** [(prev) => ({ ...prev, submitCount: prev.submitCount + 1,
      touched: Object.keys(prev.values).reduce(...) })] *)
Definition mark_attempt (prev : FormState) : FormState :=
  {| values := values prev;
     errors := errors prev;
     touched := foldl (λ acc key, <[key := true]> acc) ∅
                  (object_keys (values prev));
     isSubmitting := isSubmitting prev;
     isValid := isValid prev;
     submitCount := (submitCount prev + 1)%N;
     submitError := submitError prev |}.

(** [(prev) => ({ ...prev, isSubmitting: true, submitError: undefined })] *)
Definition begin_submitting (prev : FormState) : FormState :=
  {| values := values prev;
     errors := errors prev;
     touched := touched prev;
     isSubmitting := true;
     isValid := isValid prev;
     submitCount := submitCount prev;
     submitError := None |}.

(** [(prev) => ({ ...prev, isSubmitting: false })] *)
Definition end_submitting (prev : FormState) : FormState :=
  {| values := values prev;
     errors := errors prev;
     touched := touched prev;
     isSubmitting := false;
     isValid := isValid prev;
     submitCount := submitCount prev;
     submitError := submitError prev |}.

(** [(prev) => ({ ...prev, isSubmitting: false, submitError: ... })] *)
Definition fail_submitting (error : Thrown) (prev : FormState) : FormState :=
  {| values := values prev;
     errors := errors prev;
     touched := touched prev;
     isSubmitting := false;
     isValid := isValid prev;
     submitCount := submitCount prev;
     submitError := Some (submit_error_text error) |}.

(** [handleSubmit].  The optional event is only asked to
    [preventDefault()], which does not concern the form state.  The
    callback receives [formState.values], the values of the render that
    created this [handleSubmit]. *)
Definition handleSubmit : Eff unit :=
  setFormState (λ prev, Normal (mark_attempt prev));;
  isValid0 ← validateForm;
  match negb isValid0, onSubmitRef_current with
  | true, _ | false, None => mret tt
  | false, Some callback =>
      try_catch_eff
        (setFormState (λ prev, Normal (begin_submitting prev));;
         await_call callback (values formState);;
         setFormState (λ prev, Normal (end_submitting prev)))
        (λ error, setFormState (λ prev, Normal (fail_submitting error prev)))
  end.

End useForm.

(** One render of the component: [useForm(config)] run while the state cell
    holds [formState].  The [useCallback] dependency lists name exactly the
    render-local data each callback reads, so every callback behaves as the
    one created by the latest render. *)
Record UseFormReturn : Type := mkReturn {
  rendered : FormState;
  r_handleChange : ChangeEvent → Eff unit;
  r_handleBlur : string → Eff unit;
  r_setFieldValue : string → JsValue → Eff unit;
  r_setFieldTouched : string → option bool → Eff unit;
  r_resetForm : Eff unit;
  r_setValues : Values → Eff unit;
  r_validateForm : Eff bool;
  r_handleSubmit : Eff unit;
}.

Definition useForm (Number : string → float) (config : UseFormConfig)
    (formState : FormState) : UseFormReturn :=
  let schemaRef_current := validationSchema config in
  let onSubmitRef_current := onSubmit config in
  {| rendered := formState;
     r_handleChange := handleChange Number schemaRef_current;
     r_handleBlur := handleBlur;
     r_setFieldValue := setFieldValue schemaRef_current;
     r_setFieldTouched := setFieldTouched;
     r_resetForm := resetForm (initialValues config);
     r_setValues := setValues;
     r_validateForm := validateForm schemaRef_current formState;
     r_handleSubmit := handleSubmit schemaRef_current onSubmitRef_current formState |}.

(** The world in which a component configured with [config] has just been
    mounted. *)
Definition mount (config : UseFormConfig) : World :=
  {| form := useState_initial (initialValues config);
     submitted := [];
     written := [] |}.

(** ** Example configurations *)

Module Examples.

Definition is_digit (c : ascii) : bool :=
  (48 <=? nat_of_ascii c)%nat && (nat_of_ascii c <=? 57)%nat.

Fixpoint has_digit (s : string) : bool :=
  match s with
  | EmptyString => false
  | String c rest => is_digit c || has_digit rest
  end.

Definition too_short : ZodIssue :=
  mkIssue [SegKey "password"] "Password must be at least 8 characters".

Definition no_number : ZodIssue :=
  mkIssue [SegKey "password"] "Password must contain at least one number".

(** [z.object({ password: z.string().min(8, ...).regex(/[0-9]/, ...) })]:
    every failed check of the field contributes one issue, in the order of
    the checks. *)
Definition password_schema : ZodSchema := λ v,
  match v !! "password" with
  | Some (JString s) =>
      match ((if (String.length s <? 8)%nat then [too_short] else [])
             ++ (if has_digit s then [] else [no_number]))%list with
      | [] => Normal v
      | issues => Throw (ThrownZodError issues "Invalid input")
      end
  | _ => Throw (ThrownZodError [mkIssue [SegKey "password"] "Required"]
                  "Invalid input")
  end.

Definition password_config : UseFormConfig :=
  {| initialValues := {[ "password" := JString "" ]};
     validationSchema := Some password_schema;
     onSubmit := None |}.

(** [z.object({ email: z.string().email("") })]: the message given to the
    check is the empty string. *)
Definition silent_schema : ZodSchema := λ v,
  match v !! "email" with
  | Some (JString "bob@x.com") => Normal v
  | _ => Throw (ThrownZodError [mkIssue [SegKey "email"] ""] "Invalid input")
  end.

Definition silent_config : UseFormConfig :=
  {| initialValues := {[ "email" := JString "" ]};
     validationSchema := Some silent_schema;
     onSubmit := None |}.

(** A schema whose refinement callback itself throws a [TypeError]. *)
Definition crashing_schema : ZodSchema := λ _,
  Throw (ThrownError "Cannot read properties of undefined").

(** The one conversion of [Number] the examples need. *)
Definition Number_table : string → float := λ s,
  if String.eqb s "42" then 42%float else nan.

Definition failing_submit : SubmitCallback := λ _,
  Throw (ThrownError "network down").

Definition succeeding_submit : SubmitCallback := λ _, Normal tt.

(** The same component rendered with two different [initialValues]. *)
Definition first_config : UseFormConfig :=
  {| initialValues := {[ "name" := JString "Ada" ]};
     validationSchema := None;
     onSubmit := None |}.

Definition later_config : UseFormConfig :=
  {| initialValues := {[ "name" := JString "Grace" ]};
     validationSchema := None;
     onSubmit := None |}.

End Examples.

(** ** Sequences of callbacks *)

(** The callbacks a component can invoke on the object the hook returns. *)
Inductive Action : Type :=
  | DoChange (e : ChangeEvent)
  | DoBlur (name : string)
  | DoSetFieldValue (field : string) (value : JsValue)
  | DoSetFieldTouched (field : string) (isTouched : option bool)
  | DoReset
  | DoSetValues (partial : Values)
  | DoValidate
  | DoSubmit.

Definition dispatch (hook : UseFormReturn) (a : Action) : Eff unit :=
  match a with
  | DoChange e => r_handleChange hook e
  | DoBlur name => r_handleBlur hook name
  | DoSetFieldValue field value => r_setFieldValue hook field value
  | DoSetFieldTouched field isTouched => r_setFieldTouched hook field isTouched
  | DoReset => r_resetForm hook
  | DoSetValues partial => r_setValues hook partial
  | DoValidate => r_validateForm hook ≫= λ _, mret tt
  | DoSubmit => r_handleSubmit hook
  end.

(** One callback invocation: the configuration of the render whose callback
    is invoked, the state that render saw ([None] when the render is up to
    date with the state cell), and the callback. *)
Record Step : Type := mkStep {
  step_config : UseFormConfig;
  step_rendered : option FormState;
  step_action : Action;
}.

Definition perform (Number : string → float) (st : Step) (w : World) : World :=
  let formState := default (form w) (step_rendered st) in
  exec (dispatch (useForm Number (step_config st) formState) (step_action st)) w.

Definition run (Number : string → float) (steps : list Step) (w : World) : World :=
  foldl (λ w st, perform Number st w) w steps.

(** ** The sample component ([SampleFrom]) *)

Module SampleForm.

(** JavaScript truthiness ([!!v]). *)
Definition truthy (v : JsValue) : bool :=
  match v with
  | JUndefined | JNull => false
  | JBool b => b
  | JNumber n => negb (is_zero n || is_nan n)
  | JString s => truthy_string s
  end.

(** [const initialValues: UserFormValues = {...}] *)
Definition initialValues : Values :=
  {[ "firstName" := JString "";
     "lastName" := JString "";
     "email" := JString "";
     "password" := JString "";
     "role" := JString "user";
     "agreeToTerms" := JBool false ]}.

(** The object literal that [handleDemoData] passes to [setValues]. *)
Definition demoData : Values :=
  {[ "firstName" := JString "Mary";
     "lastName" := JString "Alishahi";
     "email" := JString "Alishahi.m2591@gmail.com";
     "password" := JString "Password123";
     "role" := JString "editor";
     "agreeToTerms" := JBool true ]}.

(** [handleDemoData]: [resetForm()] followed by [setValues({...})]. *)
Definition handleDemoData (hook : UseFormReturn) : Eff unit :=
  r_resetForm hook;;
  r_setValues hook demoData.

(** [showError(field)]: the value of [touched[field] && errors[field]],
    read from the state the component was rendered with. *)
Definition showError (formState : FormState) (field : string) : JsValue :=
  match touched formState !! field with
  | Some true =>
      match errors formState !! field with
      | Some (Some message) => JString message
      | _ => JUndefined
      end
  | Some false => JBool false
  | None => JUndefined
  end.

End SampleForm.

(** * Properties *)

(** ** JavaScript helpers *)

Lemma truthy_string_true (s : string) : truthy_string s = true ↔ s ≠ "".
Proof.
  unfold truthy_string. rewrite negb_true_iff. apply String.eqb_neq.
Qed.

Lemma truthy_error_true (e : option string) :
  truthy_error e = true ↔ ∃ s, e = Some s ∧ s ≠ "".
Proof.
  destruct e as [s|]; simpl.
  - rewrite truthy_string_true. split.
    + intros H. by exists s.
    + by intros (s' & [= <-] & H).
  - split; [done | by intros (s & ? & _)].
Qed.

Lemma some_value_true {A} (p : A → bool) (o : gmap string A) :
  some_value p o = true ↔ ∃ k v, o !! k = Some v ∧ p v = true.
Proof.
  unfold some_value. rewrite existsb_exists. split.
  - intros (v & Hin & Hp). apply in_map_iff in Hin as ([k v'] & Heq & Hin).
    simpl in Heq. subst v'. exists k, v. split; [|done].
    by apply elem_of_map_to_list, list_elem_of_In.
  - intros (k & v & Hk & Hp). exists v. split; [|done].
    apply in_map_iff. exists (k, v). split; [done|].
    by apply list_elem_of_In, elem_of_map_to_list.
Qed.

Lemma some_value_false {A} (p : A → bool) (o : gmap string A) :
  some_value p o = false ↔ ∀ k v, o !! k = Some v → p v = false.
Proof.
  rewrite <- not_true_iff_false, some_value_true. split.
  - intros H k v Hk. apply not_true_iff_false. intros Hp. apply H. eauto.
  - intros H (k & v & Hk & Hp). rewrite (H k v Hk) in Hp. done.
Qed.

Lemma elem_of_object_keys {A} (o : gmap string A) (k : string) :
  k ∈ object_keys o ↔ is_Some (o !! k).
Proof.
  unfold object_keys. rewrite list_elem_of_In, in_map_iff. split.
  - intros ([k' v] & Heq & Hin). simpl in Heq. subst k'. exists v.
    by apply elem_of_map_to_list, list_elem_of_In.
  - intros [v Hv]. exists (k, v). split; [done|].
    by apply list_elem_of_In, elem_of_map_to_list.
Qed.

(** The [reduce] of [handleSubmit] marks exactly the keys it walks over. *)
Lemma mark_all_lookup (keys : list string) (acc : Touched) (k : string) :
  foldl (λ acc key, <[key := true]> acc) acc keys !! k
  = if decide (k ∈ keys) then Some true else acc !! k.
Proof.
  revert acc. induction keys as [|key keys IH]; intros acc; cbn [foldl].
  - by rewrite decide_False by apply not_elem_of_nil.
  - rewrite IH. destruct (decide (k ∈ keys)) as [Hin|Hnin].
    + rewrite decide_True by (apply elem_of_cons; by right). done.
    + destruct (decide (k = key)) as [->|Hne].
      * rewrite decide_True by (apply elem_of_cons; by left).
        by rewrite lookup_insert_eq.
      * rewrite decide_False.
        -- by rewrite lookup_insert_ne.
        -- intros [?|?]%elem_of_cons; done.
Qed.

Lemma touched_all_lookup (vals : Values) (k : string) :
  foldl (λ acc key, <[key := true]> acc) (∅ : Touched) (object_keys vals) !! k
  = (λ _, true) <$> vals !! k.
Proof.
  rewrite mark_all_lookup. destruct (decide (k ∈ object_keys vals)) as [Hin|Hnin].
  - apply elem_of_object_keys in Hin as [v ->]. done.
  - rewrite lookup_empty. destruct (vals !! k) eqn:Hk; [|done].
    exfalso. apply Hnin, elem_of_object_keys. eauto.
Qed.

(** ** [validateWithSchema] *)

(** [validateWithSchema] catches whatever the schema throws. *)
Lemma validateWithSchema_total schema (vals : Values) :
  ∃ r, validateWithSchema schema vals = Normal r.
Proof.
  unfold validateWithSchema. destruct schema as [sch|]; [|eauto].
  destruct (sch vals) as [v|e]; simpl; [eauto|].
  destruct (instanceof_ZodError e); eauto.
Qed.

Lemma validateWithSchema_no_schema (vals : Values) :
  validateWithSchema None vals = Normal (mkValidation true ∅).
Proof. reflexivity. Qed.

Lemma validateWithSchema_accepted (sch : ZodSchema) (vals v : Values) :
  sch vals = Normal v →
  validateWithSchema (Some sch) vals = Normal (mkValidation true ∅).
Proof. intros H. unfold validateWithSchema. by rewrite H. Qed.

Lemma validateWithSchema_rejected (sch : ZodSchema) (vals : Values) e :
  sch vals = Throw e →
  validateWithSchema (Some sch) vals
  = Normal (mkValidation false
      (if instanceof_ZodError e then foldl record_issue ∅ (error_errors e) else ∅)).
Proof.
  intros H. unfold validateWithSchema. rewrite H. simpl.
  by destruct (instanceof_ZodError e).
Qed.

(** The key under which [record_issue] files a violation, if it files it. *)
Lemma record_issue_other (acc : Errors) (err : ZodIssue) (k : string) :
  ¬ (truthy_segment (head (path err)) = true
     ∧ property_key <$> head (path err) = Some k) →
  record_issue acc err !! k = acc !! k.
Proof.
  intros Hno. unfold record_issue.
  destruct (truthy_segment (head (path err))) eqn:Ht; [|done].
  destruct (head (path err)) as [p|]; [|done].
  destruct (String.eqb (property_key p) "__proto__"); [done|].
  apply lookup_insert_ne. intros Heq. apply Hno. by rewrite <- Heq.
Qed.

(** Nothing is ever filed under the key "__proto__". *)
Lemma record_issue_proto (acc : Errors) (err : ZodIssue) :
  record_issue acc err !! "__proto__" = acc !! "__proto__".
Proof.
  unfold record_issue.
  destruct (truthy_segment (head (path err))); [|done].
  destruct (head (path err)) as [p|]; [|done].
  destruct (String.eqb (property_key p) "__proto__") eqn:Hp; [done|].
  apply String.eqb_neq in Hp. by apply lookup_insert_ne.
Qed.

Lemma record_issues_proto (errs : list ZodIssue) (acc : Errors) :
  foldl record_issue acc errs !! "__proto__" = acc !! "__proto__".
Proof.
  revert acc. induction errs as [|y errs IH]; intros acc; cbn [foldl]; [done|].
  rewrite IH. apply record_issue_proto.
Qed.

Lemma record_issue_same (acc : Errors) (err : ZodIssue) (k : string) :
  truthy_segment (head (path err)) = true →
  property_key <$> head (path err) = Some k →
  k ≠ "__proto__" →
  record_issue acc err !! k = Some (Some (message err)).
Proof.
  intros Ht Hk Hproto. unfold record_issue. rewrite Ht.
  destruct (head (path err)) as [p|]; [|done].
  injection Hk as <-. apply String.eqb_neq in Hproto. rewrite Hproto.
  apply lookup_insert_eq.
Qed.

Lemma record_issues_untouched (errs : list ZodIssue) (acc : Errors) (k : string) :
  (∀ y, y ∈ errs → ¬ (truthy_segment (head (path y)) = true
                      ∧ property_key <$> head (path y) = Some k)) →
  foldl record_issue acc errs !! k = acc !! k.
Proof.
  revert acc. induction errs as [|y errs IH]; intros acc H; cbn [foldl]; [done|].
  rewrite IH.
  - apply record_issue_other, H, elem_of_cons. by left.
  - intros z Hz. apply H, elem_of_cons. by right.
Qed.

(** What [validateWithSchema] keeps for a field is the message of the last
    violation filed under that field. *)
Lemma record_issues_last (pre post : list ZodIssue) (err : ZodIssue)
    (acc : Errors) (k : string) :
  truthy_segment (head (path err)) = true →
  property_key <$> head (path err) = Some k →
  k ≠ "__proto__" →
  (∀ y, y ∈ post → ¬ (truthy_segment (head (path y)) = true
                      ∧ property_key <$> head (path y) = Some k)) →
  foldl record_issue acc (pre ++ err :: post)%list !! k
  = Some (Some (message err)).
Proof.
  intros Ht Hk Hproto Hpost. rewrite foldl_app. cbn [foldl].
  rewrite record_issues_untouched by done.
  by apply record_issue_same.
Qed.

(** [validateForm] writes the validation result of the rendered values. *)
Lemma validateForm_run schema (rendered : FormState) (w : World) r :
  validateWithSchema schema (values rendered) = Normal r →
  validateForm schema rendered w
  = (Normal (vr_isValid r),
     mkWorld (store_validation r (form w)) (submitted w)
       (written w ++ [store_validation r (form w)])).
Proof.
  intros H. unfold validateForm, mbind, eff_bind, lift. rewrite H. reflexivity.
Qed.

(** ** [setFieldValue] *)

Lemma truthy_error_false (e : option string) :
  truthy_error e = false ↔ ∀ s, e = Some s → s = "".
Proof.
  rewrite <- not_true_iff_false, truthy_error_true. split.
  - intros H s ->. destruct (decide (s = "")) as [|Hne]; [done|].
    exfalso. apply H. eauto.
  - intros H (s & -> & Hne). by apply Hne, H.
Qed.

Lemma setFieldValue_updater_accepted (sch : ZodSchema) field value prev v :
  sch (<[field := value]> (values prev)) = Normal v →
  setFieldValue_updater (Some sch) field value prev
  = Normal
      {| values := <[field := value]> (values prev);
         errors := <[field := None]> (errors prev);
         touched := touched prev;
         isSubmitting := isSubmitting prev;
         isValid := negb (some_value truthy_error (<[field := None]> (errors prev)));
         submitCount := submitCount prev;
         submitError := submitError prev |}.
Proof. intros H. unfold setFieldValue_updater. by rewrite H. Qed.

Lemma setFieldValue_updater_rejected (sch : ZodSchema) field value prev e :
  sch (<[field := value]> (values prev)) = Throw e →
  instanceof_ZodError e = true →
  setFieldValue_updater (Some sch) field value prev
  = Normal
      {| values := <[field := value]> (values prev);
         errors :=
           <[field := or_undefined
                        (message <$>
                           List.find (λ err, segment_is field (head (path err)))
                             (error_errors e))]> (errors prev);
         touched := touched prev;
         isSubmitting := isSubmitting prev;
         isValid := false;
         submitCount := submitCount prev;
         submitError := submitError prev |}.
Proof. intros H Hz. unfold setFieldValue_updater. rewrite H. simpl. by rewrite Hz. Qed.

Lemma setFieldValue_updater_crashed (sch : ZodSchema) field value prev e :
  sch (<[field := value]> (values prev)) = Throw e →
  instanceof_ZodError e = false →
  setFieldValue_updater (Some sch) field value prev
  = Normal
      {| values := <[field := value]> (values prev);
         errors := errors prev;
         touched := touched prev;
         isSubmitting := isSubmitting prev;
         isValid := isValid prev;
         submitCount := submitCount prev;
         submitError := submitError prev |}.
Proof. intros H Hz. unfold setFieldValue_updater. rewrite H. simpl. by rewrite Hz. Qed.

Lemma setFieldValue_run schema field value (w : World) s :
  setFieldValue_updater schema field value (form w) = Normal s →
  setFieldValue schema field value w
  = (Normal tt, mkWorld s (submitted w) (written w ++ [s])).
Proof. intros H. unfold setFieldValue, setFormState. by rewrite H. Qed.

(** [find] returns the first element that satisfies the test. *)
Lemma find_first {A} (p : A → bool) (pre post : list A) (x : A) :
  (∀ y, y ∈ pre → p y = false) → p x = true →
  List.find p (pre ++ x :: post) = Some x.
Proof.
  intros Hpre Hx. induction pre as [|y pre IH]; simpl.
  - by rewrite Hx.
  - rewrite (Hpre y) by (apply elem_of_cons; by left).
    apply IH. intros z Hz. apply Hpre, elem_of_cons. by right.
Qed.

Lemma find_none {A} (p : A → bool) (l : list A) :
  (∀ y, y ∈ l → p y = false) → List.find p l = None.
Proof.
  intros H. induction l as [|y l IH]; simpl; [done|].
  rewrite (H y) by (apply elem_of_cons; by left).
  apply IH. intros z Hz. apply H, elem_of_cons. by right.
Qed.

Lemma segment_is_true field (p : option PathSegment) :
  segment_is field p = true ↔ p = Some (SegKey field).
Proof.
  destruct p as [[k|i]|]; simpl; try (split; [done | by intros [=]]).
  rewrite String.eqb_eq. split; [by intros -> | by intros [= ->]].
Qed.

Lemma segment_is_false field (p : option PathSegment) :
  segment_is field p = false ↔ p ≠ Some (SegKey field).
Proof. rewrite <- not_true_iff_false. by rewrite segment_is_true. Qed.

(** C2: when a schema is configured and accepts the updated values object,
    [setFieldValue(field, value)] completes normally, writes [value] into
    [values[field]], sets the error entry of [field] to [undefined] and
    leaves the other entries alone, and sets [isValid] to [true] exactly when
    no entry of the resulting errors object holds a truthy (non-empty)
    message; so a non-empty message recorded earlier for another field
    forces [isValid = false].  Nothing else changes. *)
Theorem setFieldValue_accepted_clears_field
    (sch : ZodSchema) (field : string) (value : JsValue) (w : World) (v : Values) :
  sch (<[field := value]> (values (form w))) = Normal v →
  let m := setFieldValue (Some sch) field value in
  let s' := form (exec m w) in
  outcome m w = Normal tt
  ∧ values s' = <[field := value]> (values (form w))
  ∧ values s' !! field = Some value
  ∧ errors s' = <[field := None]> (errors (form w))
  ∧ errors s' !! field = Some None
  ∧ (∀ k, k ≠ field → errors s' !! k = errors (form w) !! k)
  ∧ (isValid s' = true ↔ ∀ k msg, errors s' !! k = Some (Some msg) → msg = "")
  ∧ (∀ k msg, k ≠ field → errors (form w) !! k = Some (Some msg) → msg ≠ "" →
       isValid s' = false)
  ∧ touched s' = touched (form w)
  ∧ isSubmitting s' = isSubmitting (form w)
  ∧ submitCount s' = submitCount (form w)
  ∧ submitError s' = submitError (form w)
  ∧ submitted (exec m w) = submitted w.
Proof.
  intros Hacc m s'.
  pose proof (setFieldValue_run (Some sch) field value w _
                (setFieldValue_updater_accepted sch field value (form w) v Hacc)) as Hrun.
  assert (Ho : outcome m w = Normal tt) by (unfold outcome, m; by rewrite Hrun).
  assert (Hw : exec m w = snd (setFieldValue (Some sch) field value w)) by done.
  rewrite Hrun in Hw. subst s'. rewrite Hw. cbn [snd form values errors touched
    isSubmitting isValid submitCount submitError submitted].
  assert (Hvalid :
    negb (some_value truthy_error (<[field := None]> (errors (form w)))) = true
    ↔ ∀ k msg, <[field := None]> (errors (form w)) !! k = Some (Some msg) → msg = "").
  { rewrite negb_true_iff, some_value_false. split.
    - intros H k msg Hk.
      exact (proj1 (truthy_error_false (Some msg)) (H k _ Hk) msg eq_refl).
    - intros H k e Hk. apply truthy_error_false. intros msg ->. by apply (H k). }
  split_and!; try done.
  - apply lookup_insert_eq.
  - apply lookup_insert_eq.
  - intros k Hk. by apply lookup_insert_ne.
  - intros k msg Hk Hprev Hmsg. apply not_true_iff_false. intros Htrue.
    apply Hmsg, (proj1 Hvalid Htrue k). by rewrite lookup_insert_ne.
Qed.

Lemma setFieldValue_accepted_clears_field_witness :
  let w := mount Examples.password_config in
  let m := setFieldValue (Some Examples.password_schema) "password"
             (JString "Password123") in
  outcome m w = Normal tt
  ∧ values (form (exec m w)) !! "password" = Some (JString "Password123")
  ∧ errors (form (exec m w)) !! "password" = Some None
  ∧ (isValid (form (exec m w)) = true
     ↔ ∀ k msg, errors (form (exec m w)) !! k = Some (Some msg) → msg = "").
Proof.
  intros w m.
  pose proof (setFieldValue_accepted_clears_field Examples.password_schema
                "password" (JString "Password123") w
                {[ "password" := JString "Password123" ]}) as H.
  destruct H as (H1 & _ & H3 & _ & H5 & _ & H7 & _).
  - vm_compute. reflexivity.
  - split_and!; [exact H1 | exact H3 | exact H5 | exact H7].
Defined.

(** C3, as stated, fails when the first violation of the field carries the
    empty message: the schema rejects [email = "bob"] with the single
    violation [{ path: ["email"], message: "" }], and the entry of [email]
    becomes [undefined], not that message. *)
Lemma setFieldValue_rejected_counterexample :
  let w := mount Examples.silent_config in
  let m := setFieldValue (Some Examples.silent_schema) "email" (JString "bob") in
  let violation := mkIssue [SegKey "email"] "" in
  Examples.silent_schema (<["email" := JString "bob"]> (values (form w)))
  = Throw (ThrownZodError [violation] "Invalid input")
  ∧ head (path violation) = Some (SegKey "email")
  ∧ errors (form (exec m w)) !! "email" = Some None
  ∧ errors (form (exec m w)) !! "email" ≠ Some (Some (message violation)).
Proof.
  intros w m violation.
  assert (H : errors (form (exec m w)) !! "email" = Some None)
    by (vm_compute; reflexivity).
  split_and!; [by vm_compute | done | exact H | by rewrite H].
Qed.

(** C3 (amended): when a schema is configured and rejects the updated values
    object with a structured violation list, [setFieldValue(field, value)]
    completes normally, writes the value, and sets the error entry of
    [field] to the message of the first violation whose leading path segment
    equals [field] if that message is not empty, and to [undefined] if that
    message is empty or there is no such violation; the entries of all other
    fields stay as they were, [isValid] becomes [false], and nothing else
    changes. *)
Theorem setFieldValue_rejected_sets_field
    (sch : ZodSchema) (field : string) (value : JsValue) (w : World) (e : Thrown) :
  sch (<[field := value]> (values (form w))) = Throw e →
  instanceof_ZodError e = true →
  let m := setFieldValue (Some sch) field value in
  let s' := form (exec m w) in
  outcome m w = Normal tt
  ∧ values s' = <[field := value]> (values (form w))
  ∧ (∀ (pre : list ZodIssue) (err : ZodIssue) (post : list ZodIssue),
       error_errors e = (pre ++ err :: post)%list →
       (∀ y, y ∈ pre → head (path y) ≠ Some (SegKey field)) →
       head (path err) = Some (SegKey field) →
       errors s' !! field
       = Some (if decide (message err = "") then None else Some (message err)))
  ∧ ((∀ y, y ∈ error_errors e → head (path y) ≠ Some (SegKey field)) →
       errors s' !! field = Some None)
  ∧ (∀ k, k ≠ field → errors s' !! k = errors (form w) !! k)
  ∧ isValid s' = false
  ∧ touched s' = touched (form w)
  ∧ isSubmitting s' = isSubmitting (form w)
  ∧ submitCount s' = submitCount (form w)
  ∧ submitError s' = submitError (form w)
  ∧ submitted (exec m w) = submitted w.
Proof.
  intros Hrej Hzod m s'.
  pose proof (setFieldValue_run (Some sch) field value w _
                (setFieldValue_updater_rejected sch field value (form w) e Hrej Hzod))
    as Hrun.
  assert (Ho : outcome m w = Normal tt) by (unfold outcome, m; by rewrite Hrun).
  assert (Hw : exec m w = snd (setFieldValue (Some sch) field value w)) by done.
  rewrite Hrun in Hw. subst s'. rewrite Hw. cbn [snd form values errors touched
    isSubmitting isValid submitCount submitError submitted].
  split_and!; try done.
  - intros pre err post Herrs Hpre Herr. rewrite lookup_insert_eq, Herrs.
    rewrite (find_first _ pre post err).
    + simpl. unfold truthy_string. destruct (decide (message err = "")) as [->|Hne].
      * done.
      * apply String.eqb_neq in Hne. by rewrite Hne.
    + intros y Hy. by apply segment_is_false, Hpre.
    + by apply segment_is_true.
  - intros Hnone. rewrite lookup_insert_eq, find_none; [done|].
    intros y Hy. by apply segment_is_false, Hnone.
  - intros k Hk. by apply lookup_insert_ne.
Qed.

Lemma setFieldValue_rejected_sets_field_witness :
  let w := mount Examples.password_config in
  let m := setFieldValue (Some Examples.password_schema) "password" (JString "abc") in
  errors (form (exec m w)) !! "password"
  = Some (Some "Password must be at least 8 characters")
  ∧ isValid (form (exec m w)) = false.
Proof.
  intros w m.
  pose proof (setFieldValue_rejected_sets_field Examples.password_schema
                "password" (JString "abc") w
                (ThrownZodError [Examples.too_short; Examples.no_number]
                   "Invalid input")) as H.
  destruct H as (_ & _ & Hfirst & _ & _ & Hvalid & _).
  - vm_compute. reflexivity.
  - reflexivity.
  - split; [|exact Hvalid].
    apply (Hfirst [] Examples.too_short [Examples.no_number]).
    + reflexivity.
    + intros y Hy. by apply elem_of_nil in Hy.
    + reflexivity.
Defined.

(** C1 (the code departs from it): on a violation list that holds two
    violations of the same field, [validateWithSchema] records the message of
    the last one, because every violation overwrites the entry of its field,
    whereas [setFieldValue] reports the first one for the same list. *)
Theorem validateWithSchema_keeps_last_violation :
  let vals : Values := {[ "password" := JString "abc" ]} in
  let w := mkWorld (useState_initial vals) [] [] in
  Examples.password_schema vals
  = Throw (ThrownZodError [Examples.too_short; Examples.no_number] "Invalid input")
  ∧ validateWithSchema (Some Examples.password_schema) vals
    = Normal (mkValidation false
        {[ "password" := Some "Password must contain at least one number" ]})
  ∧ errors (form (exec (validateForm (Some Examples.password_schema) (form w)) w))
      !! "password"
    = Some (Some (message Examples.no_number))
  ∧ errors (form (exec (setFieldValue (Some Examples.password_schema)
                          "password" (JString "abc")) w)) !! "password"
    = Some (Some (message Examples.too_short)).
Proof. split_and!; vm_compute; reflexivity. Qed.

(** ** [validateForm] *)

(** C4, as stated, fails on a render that is behind the state cell: the
    render saw [password = "abc"], [setFieldValue] then stored
    "Password123", which the schema accepts, and the [validateForm] of that
    same render still returns [false] and records an error, because it
    validates the values its render saw. *)
Lemma validateForm_counterexample :
  let w0 := mkWorld (useState_initial {[ "password" := JString "abc" ]}) [] [] in
  let formState := form w0 in
  let w1 := exec (setFieldValue (Some Examples.password_schema) "password"
                    (JString "Password123")) w0 in
  let m := validateForm (Some Examples.password_schema) formState in
  values (form w1) = {[ "password" := JString "Password123" ]}
  ∧ Examples.password_schema (values (form w1)) = Normal (values (form w1))
  ∧ outcome m w1 = Normal false
  ∧ isValid (form (exec m w1)) = false
  ∧ errors (form (exec m w1)) !! "password"
    = Some (Some "Password must contain at least one number")
  ∧ errors (form (exec m w1)) ≠ ∅.
Proof.
  intros w0 formState w1 m.
  assert (He : errors (form (exec m w1)) !! "password"
               = Some (Some "Password must contain at least one number"))
    by (vm_compute; reflexivity).
  split_and!; try (vm_compute; reflexivity).
  intros Hempty. rewrite Hempty, lookup_empty in He. discriminate He.
Qed.

(** C4 (amended): [validateForm()] completes normally and replaces the whole
    errors object by the one that [validateWithSchema] computes from
    [formState.values] of the render the callback belongs to, whatever
    errors were recorded before and whatever the state cell holds; it sets
    [isValid] to that validation result and returns it, changing nothing
    else.  When the schema accepts those values, and when no schema is
    configured, it returns [true] and leaves the errors object empty.  On an
    up-to-date render those values are the current values. *)
Theorem validateForm_replaces_errors
    (schema : option ZodSchema) (rendered : FormState) (w : World) :
  let m := validateForm schema rendered in
  let s' := form (exec m w) in
  ∃ r,
    validateWithSchema schema (values rendered) = Normal r
    ∧ outcome m w = Normal (vr_isValid r)
    ∧ errors s' = fieldErrors r
    ∧ isValid s' = vr_isValid r
    ∧ values s' = values (form w)
    ∧ touched s' = touched (form w)
    ∧ isSubmitting s' = isSubmitting (form w)
    ∧ submitCount s' = submitCount (form w)
    ∧ submitError s' = submitError (form w)
    ∧ submitted (exec m w) = submitted w
    ∧ (schema = None →
         outcome m w = Normal true ∧ errors s' = ∅ ∧ isValid s' = true)
    ∧ (∀ sch v, schema = Some sch → sch (values rendered) = Normal v →
         outcome m w = Normal true ∧ errors s' = ∅ ∧ isValid s' = true)
    ∧ (values rendered = values (form w) →
         validateWithSchema schema (values (form w)) = Normal r).
Proof.
  intros m s'.
  destruct (validateWithSchema_total schema (values rendered)) as [r Hr].
  exists r.
  pose proof (validateForm_run schema rendered w r Hr) as Hrun.
  assert (Ho : outcome m w = Normal (vr_isValid r))
    by (unfold outcome, m; by rewrite Hrun).
  assert (Hs : s' = store_validation r (form w))
    by (unfold s', exec, m; by rewrite Hrun).
  assert (Hsub : submitted (exec m w) = submitted w)
    by (unfold exec, m; by rewrite Hrun).
  rewrite Ho, Hs. split_and!; try done.
  - intros ->. rewrite validateWithSchema_no_schema in Hr.
    injection Hr as <-. done.
  - intros sch v -> Hacc.
    rewrite (validateWithSchema_accepted sch _ v Hacc) in Hr.
    injection Hr as <-. done.
  - intros <-. exact Hr.
Qed.

Lemma validateForm_replaces_errors_witness :
  let stale : FormState :=
    {| values := {[ "password" := JString "Password123" ]};
       errors := {[ "password" := Some "Required"; "email" := Some "Invalid" ]};
       touched := ∅;
       isSubmitting := false;
       isValid := false;
       submitCount := 2;
       submitError := None |} in
  let w := mkWorld stale [] [] in
  let m := validateForm (Some Examples.password_schema) stale in
  outcome m w = Normal true ∧ errors (form (exec m w)) = ∅.
Proof.
  intros stale w m.
  destruct (validateForm_replaces_errors (Some Examples.password_schema) stale w)
    as (r & _ & _ & _ & _ & _ & _ & _ & _ & _ & _ & _ & Hacc & _).
  destruct (Hacc Examples.password_schema (values stale)) as (Ho & He & _).
  - reflexivity.
  - vm_compute. reflexivity.
  - split; [exact Ho | exact He].
Defined.

(** ** [handleChange] *)

(** C5: [handleChange] hands to [setFieldValue], under the name of the
    input, the checked flag as a boolean for a checkbox, the empty string for
    a number input whose raw value is empty, [Number(value)] for a number
    input with any other raw value, and the raw string for every other kind
    of input.  A boolean is never a string, and the empty string is not a
    number. *)
Theorem handleChange_coerces
    (Number : string → float) (schema : option ZodSchema) (e : ChangeEvent) :
  (target_type e = "checkbox" →
     handleChange Number schema e
     = setFieldValue schema (target_name e) (JBool (target_checked e)))
  ∧ (target_type e = "number" → target_value e = "" →
     handleChange Number schema e
     = setFieldValue schema (target_name e) (JString ""))
  ∧ (target_type e = "number" → target_value e ≠ "" →
     handleChange Number schema e
     = setFieldValue schema (target_name e) (JNumber (Number (target_value e))))
  ∧ (target_type e ≠ "checkbox" → target_type e ≠ "number" →
     handleChange Number schema e
     = setFieldValue schema (target_name e) (JString (target_value e)))
  ∧ (∀ s, JBool (target_checked e) ≠ JString s)
  ∧ (∀ n, JString "" ≠ JNumber n).
Proof.
  unfold handleChange. split_and!.
  - intros ->. done.
  - intros -> ->. done.
  - intros -> Hv. apply String.eqb_neq in Hv. simpl. by rewrite Hv.
  - intros Hc Hn. apply String.eqb_neq in Hc, Hn. by rewrite Hc, Hn.
  - done.
  - done.
Qed.

Lemma handleChange_coerces_witness :
  handleChange Examples.Number_table None (mkChangeEvent "agree" "on" "checkbox" true)
  = setFieldValue None "agree" (JBool true)
  ∧ handleChange Examples.Number_table None (mkChangeEvent "age" "" "number" false)
    = setFieldValue None "age" (JString "")
  ∧ handleChange Examples.Number_table None (mkChangeEvent "age" "42" "number" false)
    = setFieldValue None "age" (JNumber 42%float)
  ∧ handleChange Examples.Number_table None (mkChangeEvent "email" "a@b" "email" false)
    = setFieldValue None "email" (JString "a@b").
Proof.
  split_and!.
  - destruct (handleChange_coerces Examples.Number_table None
                (mkChangeEvent "agree" "on" "checkbox" true)) as (H & _).
    apply H. reflexivity.
  - destruct (handleChange_coerces Examples.Number_table None
                (mkChangeEvent "age" "" "number" false)) as (_ & H & _).
    apply H; reflexivity.
  - destruct (handleChange_coerces Examples.Number_table None
                (mkChangeEvent "age" "42" "number" false)) as (_ & _ & H & _).
    apply H; [reflexivity | discriminate].
  - destruct (handleChange_coerces Examples.Number_table None
                (mkChangeEvent "email" "a@b" "email" false)) as (_ & _ & _ & H & _).
    apply H; discriminate.
Defined.

(** ** [resetForm] *)

(** C6, as stated, fails when a later render passes other initial values:
    [resetForm] is re-created with the [initialValues] of the render it
    belongs to, and it is those that it restores. *)
Lemma resetForm_counterexample :
  let w0 := mount Examples.first_config in
  let hook := useForm Examples.Number_table Examples.later_config (form w0) in
  let w1 := exec (r_resetForm hook) w0 in
  values (form w0) = initialValues Examples.first_config
  ∧ values (form w1) = {[ "name" := JString "Grace" ]}
  ∧ values (form w1) ≠ initialValues Examples.first_config.
Proof.
  intros w0 hook w1.
  assert (H : values (form w1) = {[ "name" := JString "Grace" ]}) by reflexivity.
  split_and!; [reflexivity | exact H |].
  rewrite H. intros Heq.
  assert (Hl : ({[ "name" := JString "Grace" ]} : Values) !! "name"
               = initialValues Examples.first_config !! "name") by by rewrite Heq.
  vm_compute in Hl. discriminate Hl.
Qed.

(** C6 (amended): from every state, whatever happened before, the
    [resetForm()] of a render completes normally and puts the state cell back
    to what a freshly mounted hook with that render's configuration holds:
    [values] are the [initialValues] of the configuration passed to that
    render (the construction-time ones whenever the caller still passes the
    same initial values), [errors] and [touched] are empty, [submitCount] is
    0, [submitError] is absent, [isSubmitting] is [false] and [isValid] is
    [true]; doing it twice leaves the same state as doing it once. *)
Theorem resetForm_restores_rendered_initial
    (Number : string → float) (config : UseFormConfig)
    (formState : FormState) (w : World) :
  let m := r_resetForm (useForm Number config formState) in
  let s' := form (exec m w) in
  outcome m w = Normal tt
  ∧ values s' = initialValues config
  ∧ errors s' = ∅
  ∧ touched s' = ∅
  ∧ submitCount s' = 0%N
  ∧ submitError s' = None
  ∧ isSubmitting s' = false
  ∧ isValid s' = true
  ∧ s' = form (mount config)
  ∧ form (exec m (exec m w)) = s'
  ∧ submitted (exec m w) = submitted w
  ∧ (∀ config0, initialValues config = initialValues config0 →
       s' = form (mount config0)).
Proof.
  intros m s'. split_and!; try reflexivity.
  intros config0 H. subst s' m. unfold mount. simpl. by rewrite <- H.
Qed.

Lemma resetForm_restores_rendered_initial_witness :
  let w0 := mount Examples.password_config in
  let w1 := exec (setFieldValue (Some Examples.password_schema) "password"
                    (JString "abc")) w0 in
  let hook := useForm Examples.Number_table Examples.password_config (form w1) in
  form (exec (r_resetForm hook) w1) = form w0.
Proof.
  intros w0 w1 hook.
  destruct (resetForm_restores_rendered_initial Examples.Number_table
              Examples.password_config (form w1) w1)
    as (_ & _ & _ & _ & _ & _ & _ & _ & _ & _ & _ & H).
  apply (H Examples.password_config). reflexivity.
Defined.

(** ** [handleSubmit] *)

Lemma handleSubmit_run schema cb (rendered : FormState) (w : World) r :
  validateWithSchema schema (values rendered) = Normal r →
  handleSubmit schema cb rendered w
  = let s1 := mark_attempt (form w) in
    let s2 := store_validation r s1 in
    match vr_isValid r, cb with
    | true, Some callback =>
        let s3 := begin_submitting s2 in
        let s4 := match callback (values rendered) with
                  | Normal _ => end_submitting s3
                  | Throw error => fail_submitting error s3
                  end in
        (Normal tt,
         mkWorld s4 (submitted w ++ [values rendered])
           (written w ++ [s1; s2; s3; s4]))
    | _, _ =>
        (Normal tt, mkWorld s2 (submitted w) (written w ++ [s1; s2]))
    end.
Proof.
  intros Hr. unfold handleSubmit.
  unfold mbind at 1. unfold eff_bind at 1. unfold setFormState at 1.
  unfold mbind at 1. unfold eff_bind at 1.
  rewrite (validateForm_run schema rendered _ r Hr).
  cbn [form submitted written]. rewrite <- app_assoc. cbn [app].
  destruct (vr_isValid r); cbn [negb]; [|by destruct cb].
  destruct cb as [callback|]; [|done].
  unfold try_catch_eff, mbind, eff_bind, setFormState, await_call.
  cbn [form submitted written].
  destruct (callback (values rendered)) as [[]|error];
    cbn [form submitted written]; by rewrite <- !app_assoc.
Qed.

(** C7: every [handleSubmit()] completes normally and leaves [submitCount]
    one higher than it found it, whatever the schema, the callback and their
    results are; the first state it writes already carries the incremented
    counter together with a [touched] object that maps every key of [values],
    and no other key, to [true], and that is still so in the final state. *)
Theorem handleSubmit_counts_attempt
    (schema : option ZodSchema) (cb : option SubmitCallback)
    (rendered : FormState) (w : World) :
  let m := handleSubmit schema cb rendered in
  let s' := form (exec m w) in
  outcome m w = Normal tt
  ∧ submitCount s' = (submitCount (form w) + 1)%N
  ∧ (∀ k, is_Some (values (form w) !! k) → touched s' !! k = Some true)
  ∧ (∀ k, touched s' !! k = (λ _, true) <$> values (form w) !! k)
  ∧ values s' = values (form w)
  ∧ (∃ rest, written (exec m w) = (written w ++ mark_attempt (form w) :: rest)%list)
  ∧ submitCount (mark_attempt (form w)) = (submitCount (form w) + 1)%N
  ∧ (∀ k, touched (mark_attempt (form w)) !! k
          = (λ _, true) <$> values (form w) !! k).
Proof.
  intros m s'.
  destruct (validateWithSchema_total schema (values rendered)) as [r Hr].
  pose proof (handleSubmit_run schema cb rendered w r Hr) as Hrun.
  assert (Htouched : ∀ k, touched (mark_attempt (form w)) !! k
                          = (λ _, true) <$> values (form w) !! k)
    by (intros k; apply touched_all_lookup).
  assert (Hsome : ∀ k, is_Some (values (form w) !! k) →
                       touched (mark_attempt (form w)) !! k = Some true).
  { intros k [v Hv]. by rewrite Htouched, Hv. }
  subst s'. unfold exec, outcome. subst m. rewrite Hrun. clear Hrun.
  destruct (vr_isValid r), cb as [callback|]; cbn zeta;
    try destruct (callback (values rendered)) as [[]|error];
    cbn [fst snd form submitted written];
    (split_and!; [done | done | exact Hsome | exact Htouched | done
                  | eexists; reflexivity | done | exact Htouched]).
Qed.

(** C8: when the validation that [handleSubmit()] runs on the rendered
    values fails, or when no submit callback is configured, the call
    completes normally without invoking the callback; it writes two states,
    neither of which changes [isSubmitting] (so a [false] flag stays
    [false]), and the final state differs from the initial one only by the
    incremented counter, the all-true [touched] object and the stored
    validation result. *)
Theorem handleSubmit_stops_without_submitting
    (schema : option ZodSchema) (cb : option SubmitCallback)
    (rendered : FormState) (w : World) (r : ValidationResult) :
  validateWithSchema schema (values rendered) = Normal r →
  vr_isValid r = false ∨ cb = None →
  let m := handleSubmit schema cb rendered in
  let s' := form (exec m w) in
  outcome m w = Normal tt
  ∧ submitted (exec m w) = submitted w
  ∧ written (exec m w) = (written w ++ [mark_attempt (form w); s'])%list
  ∧ isSubmitting (mark_attempt (form w)) = isSubmitting (form w)
  ∧ isSubmitting s' = isSubmitting (form w)
  ∧ (isSubmitting (form w) = false → isSubmitting s' = false)
  ∧ s' = store_validation r (mark_attempt (form w))
  ∧ values s' = values (form w)
  ∧ submitError s' = submitError (form w)
  ∧ submitCount s' = (submitCount (form w) + 1)%N
  ∧ errors s' = fieldErrors r
  ∧ isValid s' = vr_isValid r.
Proof.
  intros Hr Hstop m s'.
  pose proof (handleSubmit_run schema cb rendered w r Hr) as Hrun.
  assert (Hrun' : handleSubmit schema cb rendered w
                  = (Normal tt,
                     mkWorld (store_validation r (mark_attempt (form w)))
                       (submitted w)
                       (written w ++ [mark_attempt (form w);
                                      store_validation r (mark_attempt (form w))]))).
  { rewrite Hrun. destruct Hstop as [-> | ->]; [done|].
    by destruct (vr_isValid r). }
  subst s'. unfold exec, outcome. subst m. rewrite Hrun'.
  cbn [fst snd form submitted written]. split_and!; try done.
Qed.

Lemma handleSubmit_stops_without_submitting_witness :
  let stale : FormState :=
    {| values := {[ "password" := JString "abc" ]};
       errors := ∅;
       touched := ∅;
       isSubmitting := false;
       isValid := true;
       submitCount := 0;
       submitError := None |} in
  let w := mkWorld stale [] [] in
  let m := handleSubmit (Some Examples.password_schema)
             (Some Examples.succeeding_submit) stale in
  submitted (exec m w) = [] ∧ isSubmitting (form (exec m w)) = false.
Proof.
  intros stale w m.
  destruct (handleSubmit_stops_without_submitting
              (Some Examples.password_schema) (Some Examples.succeeding_submit)
              stale w
              (mkValidation false
                 {[ "password" := Some "Password must contain at least one number" ]}))
    as (_ & Hcalls & _ & _ & _ & Hflag & _).
  - vm_compute. reflexivity.
  - left. reflexivity.
  - split; [exact Hcalls | apply Hflag; reflexivity].
Defined.

(** C9: when the validation that [handleSubmit()] runs succeeds and a submit
    callback is configured, the callback is invoked once with the rendered
    values and the call completes normally however the callback settles;
    afterwards [isSubmitting] is [false], and [submitError] is absent if the
    callback succeeded, the message of the failure if the failure is an
    [Error], and the text "Form submission failed" otherwise. *)
Theorem handleSubmit_settles
    (schema : option ZodSchema) (callback : SubmitCallback)
    (rendered : FormState) (w : World) (r : ValidationResult) :
  validateWithSchema schema (values rendered) = Normal r →
  vr_isValid r = true →
  let m := handleSubmit schema (Some callback) rendered in
  let s' := form (exec m w) in
  outcome m w = Normal tt
  ∧ submitted (exec m w) = (submitted w ++ [values rendered])%list
  ∧ isSubmitting s' = false
  ∧ (∀ u, callback (values rendered) = Normal u → submitError s' = None)
  ∧ (∀ error, callback (values rendered) = Throw error →
       instanceof_Error error = true →
       submitError s' = Some (error_message error))
  ∧ (∀ msg, callback (values rendered) = Throw (ThrownError msg) →
       submitError s' = Some msg)
  ∧ (∀ error, callback (values rendered) = Throw error →
       instanceof_Error error = false →
       submitError s' = Some "Form submission failed").
Proof.
  intros Hr Hvalid m s'.
  pose proof (handleSubmit_run schema (Some callback) rendered w r Hr) as Hrun.
  rewrite Hvalid in Hrun. cbn zeta in Hrun.
  subst s'. unfold exec, outcome. subst m. rewrite Hrun. clear Hrun.
  cbn [fst snd form submitted written].
  destruct (callback (values rendered)) as [[]|error]; simpl.
  - split_and!; try done.
  - unfold submit_error_text. split_and!; try done.
    + intros error' [= <-] Herr. by rewrite Herr.
    + intros msg [= ->]. done.
    + intros error' [= <-] Herr. by rewrite Herr.
Qed.

Lemma handleSubmit_settles_witness :
  let fresh : FormState :=
    useState_initial {[ "password" := JString "Password123" ]} in
  let w := mkWorld fresh [] [] in
  let m := handleSubmit (Some Examples.password_schema)
             (Some Examples.failing_submit) fresh in
  outcome m w = Normal tt
  ∧ isSubmitting (form (exec m w)) = false
  ∧ submitError (form (exec m w)) = Some "network down".
Proof.
  intros fresh w m.
  destruct (handleSubmit_settles (Some Examples.password_schema)
              Examples.failing_submit fresh w (mkValidation true ∅))
    as (Ho & _ & Hflag & _ & _ & Hmsg & _).
  - vm_compute. reflexivity.
  - reflexivity.
  - split_and!; [exact Ho | exact Hflag | apply Hmsg; reflexivity].
Defined.

(** ** Failures of the schema that are not violation lists *)

(** C10: when the configured schema, given the updated values object,
    throws something that is not a [ZodError], [setFieldValue(field, value)]
    still completes normally and writes the value into [values[field]],
    leaving [errors], [isValid] and everything else as they were; and,
    independently, when the schema fails in that way on the values that
    [validateForm()] validates, [validateForm()] completes normally, returns
    [false], and leaves [isValid = false] with an empty errors object. *)
Theorem unstructured_schema_failure (sch : ZodSchema) :
  (∀ (field : string) (value : JsValue) (w : World) (e : Thrown),
     sch (<[field := value]> (values (form w))) = Throw e →
     instanceof_ZodError e = false →
     let m := setFieldValue (Some sch) field value in
     outcome m w = Normal tt
     ∧ values (form (exec m w)) = <[field := value]> (values (form w))
     ∧ values (form (exec m w)) !! field = Some value
     ∧ errors (form (exec m w)) = errors (form w)
     ∧ isValid (form (exec m w)) = isValid (form w)
     ∧ touched (form (exec m w)) = touched (form w)
     ∧ isSubmitting (form (exec m w)) = isSubmitting (form w)
     ∧ submitCount (form (exec m w)) = submitCount (form w)
     ∧ submitError (form (exec m w)) = submitError (form w))
  ∧ (∀ (rendered : FormState) (w : World) (e : Thrown),
       sch (values rendered) = Throw e →
       instanceof_ZodError e = false →
       let v := validateForm (Some sch) rendered in
       outcome v w = Normal false
       ∧ isValid (form (exec v w)) = false
       ∧ errors (form (exec v w)) = ∅
       ∧ values (form (exec v w)) = values (form w)).
Proof.
  split.
  - intros field value w e H Hz m.
    pose proof (setFieldValue_run (Some sch) field value w _
                  (setFieldValue_updater_crashed sch field value (form w) e H Hz))
      as Hrun.
    unfold exec, outcome. subst m. rewrite Hrun.
    cbn [fst snd form values errors isValid touched isSubmitting submitCount
         submitError].
    split_and!; try done. apply lookup_insert_eq.
  - intros rendered w e H Hz v.
    pose proof (validateWithSchema_rejected sch (values rendered) e H) as Hr.
    rewrite Hz in Hr.
    pose proof (validateForm_run (Some sch) rendered w _ Hr) as Hrun.
    unfold exec, outcome. subst v. rewrite Hrun. done.
Qed.

Lemma unstructured_schema_failure_witness :
  let dirty : FormState :=
    {| values := {[ "email" := JString "" ]};
       errors := {[ "email" := Some "Required" ]};
       touched := ∅;
       isSubmitting := false;
       isValid := false;
       submitCount := 0;
       submitError := None |} in
  let w := mkWorld dirty [] [] in
  let m := setFieldValue (Some Examples.crashing_schema) "email" (JString "bob") in
  let v := validateForm (Some Examples.crashing_schema) dirty in
  (values (form (exec m w)) !! "email" = Some (JString "bob")
   ∧ errors (form (exec m w)) = errors dirty)
  ∧ outcome v w = Normal false
  ∧ errors (form (exec v w)) = ∅.
Proof.
  intros dirty w m v.
  destruct (unstructured_schema_failure Examples.crashing_schema)
    as (Hset & Hvalidate).
  destruct (Hset "email" (JString "bob") w
              (ThrownError "Cannot read properties of undefined"))
    as (_ & _ & Hval & Herr & _); [reflexivity | reflexivity |].
  destruct (Hvalidate dirty w
              (ThrownError "Cannot read properties of undefined"))
    as (Ho & _ & Hempty & _); [reflexivity | reflexivity |].
  split_and!; [exact Hval | exact Herr | exact Ho | exact Hempty].
Defined.

(** * Further properties of the hook *)

(** ** [setFieldValue] in all its branches *)

(** Whatever the schema does, the updater of [setFieldValue] returns a state
    that differs from the previous one in [values], [errors] and [isValid]
    only, with the error entries of the other fields kept. *)
Lemma setFieldValue_updater_shape schema field value (prev : FormState) :
  ∃ (errs' : Errors) (valid' : bool),
    setFieldValue_updater schema field value prev
    = Normal {| values := <[field := value]> (values prev);
                errors := errs';
                touched := touched prev;
                isSubmitting := isSubmitting prev;
                isValid := valid';
                submitCount := submitCount prev;
                submitError := submitError prev |}
    ∧ (∀ k, k ≠ field → errs' !! k = errors prev !! k)
    ∧ ((isValid prev = true → some_value truthy_error (errors prev) = false) →
       valid' = true → some_value truthy_error errs' = false)
    ∧ (schema = None → errs' = errors prev ∧ valid' = isValid prev).
Proof.
  destruct schema as [sch|].
  - destruct (sch (<[field := value]> (values prev))) as [v|e] eqn:Hparse.
    + eexists _, _. split; [by apply (setFieldValue_updater_accepted sch _ _ _ v)|].
      split_and!; [|by intros _ ?%negb_true_iff|done].
      intros k Hk. by apply lookup_insert_ne.
    + destruct (instanceof_ZodError e) eqn:Hzod.
      * eexists _, _.
        split; [by apply (setFieldValue_updater_rejected sch _ _ _ e)|].
        split_and!; [|done|done]. intros k Hk. by apply lookup_insert_ne.
      * eexists _, _.
        split; [by apply (setFieldValue_updater_crashed sch _ _ _ e)|].
        split_and!; done.
  - eexists _, _. split; [reflexivity|]. split_and!; done.
Qed.

(** [setFieldValue(field, value)] always completes normally and stores the
    value under [field], with or without a schema and whatever the schema
    does; it writes one state, and that state keeps the values and the error
    entries of all other fields, [touched], [isSubmitting], [submitCount]
    and [submitError]; the submit callback is not invoked. *)
Theorem setFieldValue_frame
    (schema : option ZodSchema) (field : string) (value : JsValue) (w : World) :
  let m := setFieldValue schema field value in
  let s' := form (exec m w) in
  outcome m w = Normal tt
  ∧ values s' = <[field := value]> (values (form w))
  ∧ values s' !! field = Some value
  ∧ (∀ k, k ≠ field → values s' !! k = values (form w) !! k)
  ∧ (∀ k, k ≠ field → errors s' !! k = errors (form w) !! k)
  ∧ touched s' = touched (form w)
  ∧ isSubmitting s' = isSubmitting (form w)
  ∧ submitCount s' = submitCount (form w)
  ∧ submitError s' = submitError (form w)
  ∧ submitted (exec m w) = submitted w
  ∧ written (exec m w) = (written w ++ [s'])%list.
Proof.
  intros m s'.
  destruct (setFieldValue_updater_shape schema field value (form w))
    as (errs' & valid' & Hupd & Hother & _).
  pose proof (setFieldValue_run schema field value w _ Hupd) as Hrun.
  subst s'. unfold exec, outcome. subst m. rewrite Hrun.
  cbn [fst snd form values errors touched isSubmitting isValid submitCount
       submitError submitted written].
  split_and!; try done.
  - apply lookup_insert_eq.
  - intros k Hk. by apply lookup_insert_ne.
Qed.

(** Writing the same field twice in a row leaves the state that the second
    write alone would leave, provided the second validation does not fail
    with something other than a violation list. *)
Theorem setFieldValue_last_write_wins
    (schema : option ZodSchema) (field : string) (v1 v2 : JsValue) (w : World) :
  (∀ sch e, schema = Some sch →
     sch (<[field := v2]> (values (form w))) = Throw e →
     instanceof_ZodError e = true) →
  form (exec (setFieldValue schema field v2) (exec (setFieldValue schema field v1) w))
  = form (exec (setFieldValue schema field v2) w).
Proof.
  intros Hstructured.
  destruct (setFieldValue_updater_shape schema field v1 (form w))
    as (errs1 & valid1 & Hupd1 & Hother1 & _ & Hnone1).
  pose proof (setFieldValue_run schema field v1 w _ Hupd1) as Hrun1.
  unfold exec at 2. rewrite Hrun1. cbn [snd].
  unfold exec, setFieldValue, setFormState. cbn [form].
  assert (Herrs : ∀ x : option string,
            <[field := x]> errs1 = <[field := x]> (errors (form w))).
  { intros x. apply map_eq. intros k. destruct (decide (k = field)) as [->|Hk].
    - by rewrite !lookup_insert_eq.
    - rewrite !lookup_insert_ne by done. by apply Hother1. }
  destruct schema as [sch|].
  - unfold setFieldValue_updater. cbn [values errors].
    rewrite !insert_insert_eq.
    destruct (sch (<[field := v2]> (values (form w)))) as [v|e] eqn:Hparse.
    + cbn. by rewrite !Herrs.
    + cbn [try_catch cbind]. rewrite (Hstructured sch e eq_refl Hparse).
      cbn. by rewrite !Herrs.
  - destruct (Hnone1 eq_refl) as [-> ->].
    unfold setFieldValue_updater. cbn. by rewrite insert_insert_eq.
Qed.

Lemma setFieldValue_last_write_wins_witness :
  let w := mount Examples.password_config in
  let schema := Some Examples.password_schema in
  form (exec (setFieldValue schema "password" (JString "Password123"))
          (exec (setFieldValue schema "password" (JString "abc")) w))
  = form (exec (setFieldValue schema "password" (JString "Password123")) w).
Proof.
  intros w schema.
  apply (setFieldValue_last_write_wins schema "password" (JString "abc")
           (JString "Password123") w).
  intros sch e [= <-] Hparse. vm_compute in Hparse. discriminate Hparse.
Defined.

(** ** [validateWithSchema] on its own *)

Lemma validateWithSchema_verdict (schema : option ZodSchema) (vals : Values) :
  ∃ r, validateWithSchema schema vals = Normal r
       ∧ (vr_isValid r = true
          ↔ schema = None ∨ ∃ sch v, schema = Some sch ∧ sch vals = Normal v)
       ∧ (vr_isValid r = true → fieldErrors r = ∅).
Proof.
  destruct schema as [sch|].
  - destruct (sch vals) as [v|e] eqn:Hparse.
    + eexists. split; [by apply (validateWithSchema_accepted sch vals v)|].
      split; [|done]. split; [|done]. intros _. right. by exists sch, v.
    + eexists. split; [by apply validateWithSchema_rejected|].
      split; [|done]. split; [done|].
      intros [?|(sch' & v & [= <-] & Hv)]; [done|].
      rewrite Hparse in Hv. discriminate Hv.
  - eexists. split; [reflexivity|]. split; [|done]. split; [|done]. by left.
Qed.

(** [validateWithSchema] never throws; it reports the values valid exactly
    when there is no schema or the schema returns normally, and then it
    reports no field error. *)
Theorem validateWithSchema_valid_iff (schema : option ZodSchema) (vals : Values) :
  ∃ r, validateWithSchema schema vals = Normal r
       ∧ (vr_isValid r = true
          ↔ schema = None ∨ ∃ sch v, schema = Some sch ∧ sch vals = Normal v)
       ∧ (vr_isValid r = true → fieldErrors r = ∅).
Proof. apply validateWithSchema_verdict. Qed.

(** For each key other than "__proto__", [validateWithSchema] keeps the
    message of the last violation whose leading path segment is truthy and
    converts to that key; under "__proto__" it never reports anything. *)
Theorem validateWithSchema_records_last
    (sch : ZodSchema) (vals : Values) (e : Thrown)
    (pre post : list ZodIssue) (err : ZodIssue) (k : string) :
  sch vals = Throw e →
  instanceof_ZodError e = true →
  error_errors e = (pre ++ err :: post)%list →
  truthy_segment (head (path err)) = true →
  property_key <$> head (path err) = Some k →
  k ≠ "__proto__" →
  (∀ y, y ∈ post → ¬ (truthy_segment (head (path y)) = true
                      ∧ property_key <$> head (path y) = Some k)) →
  ∃ r, validateWithSchema (Some sch) vals = Normal r
       ∧ vr_isValid r = false
       ∧ fieldErrors r !! k = Some (Some (message err))
       ∧ fieldErrors r !! "__proto__" = None.
Proof.
  intros Hparse Hzod Herrs Ht Hk Hproto Hpost. eexists.
  split; [by apply validateWithSchema_rejected|].
  rewrite Hzod. cbn [vr_isValid fieldErrors]. split_and!; [done| |].
  - rewrite Herrs. by apply record_issues_last.
  - by rewrite record_issues_proto.
Qed.

Lemma validateWithSchema_records_last_witness :
  ∃ r, validateWithSchema (Some Examples.password_schema)
         {[ "password" := JString "abc" ]} = Normal r
       ∧ vr_isValid r = false
       ∧ fieldErrors r !! "password"
         = Some (Some "Password must contain at least one number")
       ∧ fieldErrors r !! "__proto__" = None.
Proof.
  apply (validateWithSchema_records_last Examples.password_schema
           {[ "password" := JString "abc" ]}
           (ThrownZodError [Examples.too_short; Examples.no_number] "Invalid input")
           [Examples.too_short] [] Examples.no_number "password").
  - vm_compute. reflexivity.
  - reflexivity.
  - reflexivity.
  - reflexivity.
  - reflexivity.
  - discriminate.
  - intros y Hy. by apply elem_of_nil in Hy.
Defined.

Lemma record_issues_origin (errs : list ZodIssue) (acc : Errors)
    (k : string) (v : option string) :
  foldl record_issue acc errs !! k = Some v →
  acc !! k = Some v
  ∨ ∃ err, err ∈ errs
           ∧ truthy_segment (head (path err)) = true
           ∧ property_key <$> head (path err) = Some k
           ∧ v = Some (message err).
Proof.
  revert acc. induction errs as [|y errs IH]; intros acc H; cbn [foldl] in H.
  - by left.
  - destruct (IH _ H) as [Hacc | (err & Hin & Ht & Hk & Hv)].
    + unfold record_issue in Hacc.
      destruct (truthy_segment (head (path y))) eqn:Ht; [|by left].
      destruct (head (path y)) as [p|] eqn:Hp; [|by left].
      destruct (String.eqb (property_key p) "__proto__"); [by left|].
      destruct (decide (property_key p = k)) as [<-|Hne].
      * rewrite lookup_insert_eq in Hacc. injection Hacc as <-.
        right. exists y. rewrite Hp. split_and!; try done.
        apply elem_of_cons. by left.
      * rewrite lookup_insert_ne in Hacc by done. by left.
    + right. exists err. split_and!; try done. apply elem_of_cons. by right.
Qed.

(** Every entry that [validateWithSchema] reports under a key is the message
    of one of the violations the schema threw, one whose leading path
    segment is truthy and converts to that key; no entry is [undefined]. *)
Theorem validateWithSchema_entries_come_from_violations
    (sch : ZodSchema) (vals : Values) (e : Thrown) (r : ValidationResult)
    (k : string) (v : option string) :
  sch vals = Throw e →
  validateWithSchema (Some sch) vals = Normal r →
  fieldErrors r !! k = Some v →
  instanceof_ZodError e = true
  ∧ ∃ err, err ∈ error_errors e
           ∧ truthy_segment (head (path err)) = true
           ∧ property_key <$> head (path err) = Some k
           ∧ v = Some (message err).
Proof.
  intros Hparse Hr Hk.
  rewrite (validateWithSchema_rejected sch vals e Hparse) in Hr.
  injection Hr as <-. cbn [fieldErrors] in Hk.
  destruct (instanceof_ZodError e); [|by rewrite lookup_empty in Hk].
  split; [done|].
  destruct (record_issues_origin _ _ _ _ Hk) as [Hempty|H]; [|done].
  by rewrite lookup_empty in Hempty.
Qed.

Lemma validateWithSchema_entries_come_from_violations_witness :
  ∃ err, err ∈ [Examples.too_short; Examples.no_number]
         ∧ truthy_segment (head (path err)) = true
         ∧ property_key <$> head (path err) = Some "password"
         ∧ Some "Password must contain at least one number" = Some (message err).
Proof.
  apply (validateWithSchema_entries_come_from_violations Examples.password_schema
           {[ "password" := JString "abc" ]}
           (ThrownZodError [Examples.too_short; Examples.no_number] "Invalid input")
           (mkValidation false
              {[ "password" := Some "Password must contain at least one number" ]})
           "password" (Some "Password must contain at least one number")).
  - vm_compute. reflexivity.
  - vm_compute. reflexivity.
  - reflexivity.
Defined.

(** A violation whose path is empty, or starts with the empty string or with
    index 0, is not reported under any key: if all violations are of that
    kind, [validateWithSchema] reports the values invalid with no field
    error at all. *)
Theorem validateWithSchema_drops_falsy_segments
    (sch : ZodSchema) (vals : Values) (e : Thrown) :
  sch vals = Throw e →
  instanceof_ZodError e = true →
  (∀ y, y ∈ error_errors e → truthy_segment (head (path y)) = false) →
  validateWithSchema (Some sch) vals = Normal (mkValidation false ∅).
Proof.
  intros Hparse Hzod Hfalsy.
  rewrite (validateWithSchema_rejected sch vals e Hparse), Hzod.
  do 2 f_equal. apply map_eq. intros k.
  apply record_issues_untouched. intros y Hy [Ht _].
  by rewrite (Hfalsy y Hy) in Ht.
Qed.

Lemma validateWithSchema_drops_falsy_segments_witness :
  let issues := [mkIssue [] "Passwords do not match";
                 mkIssue [SegIndex 0; SegKey "name"] "Required";
                 mkIssue [SegKey ""] "Unexpected key"] in
  validateWithSchema (Some (λ _, Throw (ThrownZodError issues "Invalid input")))
    {[ "password" := JString "abc" ]}
  = Normal (mkValidation false ∅).
Proof.
  intros issues.
  apply (validateWithSchema_drops_falsy_segments _ _
           (ThrownZodError issues "Invalid input")).
  - reflexivity.
  - reflexivity.
  - intros y Hy. cbn [error_errors] in Hy. subst issues.
    repeat (apply elem_of_cons in Hy as [->|Hy]; [reflexivity|]).
    by apply elem_of_nil in Hy.
Defined.

(** ** [validateForm] from a stale render *)

(** [validateForm] validates the values its render saw, not the ones in the
    state cell: its result, and the [errors] and [isValid] it stores, are
    the same whatever the state cell holds, and the values in the cell are
    left as they are. *)
Theorem validateForm_reads_rendered_values
    (schema : option ZodSchema) (rendered : FormState) (w1 w2 : World) :
  let m := validateForm schema rendered in
  outcome m w1 = outcome m w2
  ∧ errors (form (exec m w1)) = errors (form (exec m w2))
  ∧ isValid (form (exec m w1)) = isValid (form (exec m w2))
  ∧ values (form (exec m w1)) = values (form w1)
  ∧ (∀ r, validateWithSchema schema (values rendered) = Normal r →
       outcome m w1 = Normal (vr_isValid r)
       ∧ errors (form (exec m w1)) = fieldErrors r).
Proof.
  intros m.
  destruct (validateWithSchema_total schema (values rendered)) as [r Hr].
  pose proof (validateForm_run schema rendered w1 r Hr) as H1.
  pose proof (validateForm_run schema rendered w2 r Hr) as H2.
  unfold exec, outcome. subst m. rewrite H1, H2. split_and!; try done.
  intros r' Hr'. rewrite Hr in Hr'. by injection Hr' as <-.
Qed.

(** ** [setFieldTouched] and [handleBlur] *)

(** [setFieldTouched(field, isTouched)] completes normally, sets
    [touched[field]] to the flag ([true] when the flag is omitted), keeps
    the flags of the other fields and every other part of the state, and
    runs no validation; when the same field is marked twice the second flag
    stands.  [handleBlur] is [setFieldTouched] with [true]. *)
Theorem setFieldTouched_marks_one_field
    (field : string) (isTouched isTouched0 : option bool) (w : World) :
  let m := setFieldTouched field isTouched in
  let s' := form (exec m w) in
  outcome m w = Normal tt
  ∧ touched s' !! field = Some (default true isTouched)
  ∧ (∀ k, k ≠ field → touched s' !! k = touched (form w) !! k)
  ∧ values s' = values (form w)
  ∧ errors s' = errors (form w)
  ∧ isValid s' = isValid (form w)
  ∧ isSubmitting s' = isSubmitting (form w)
  ∧ submitCount s' = submitCount (form w)
  ∧ submitError s' = submitError (form w)
  ∧ submitted (exec m w) = submitted w
  ∧ form (exec m (exec (setFieldTouched field isTouched0) w)) = s'
  ∧ handleBlur field = setFieldTouched field None.
Proof.
  intros m s'. subst s' m. unfold exec, outcome, setFieldTouched, setFormState.
  cbn [fst snd form values errors touched isSubmitting isValid submitCount
       submitError submitted].
  split_and!; try done.
  - apply lookup_insert_eq.
  - intros k Hk. by apply lookup_insert_ne.
  - by rewrite insert_insert_eq.
Qed.

(** ** [setValues] *)

(** [setValues(partial)] completes normally and merges [partial] over the
    current values: a key of [partial] takes the value given there and every
    other key keeps its value.  Nothing is validated: [errors], [isValid],
    [touched] and the submission fields stay as they were. *)
Theorem setValues_merges (partial : Values) (w : World) :
  let m := setValues partial in
  let s' := form (exec m w) in
  outcome m w = Normal tt
  ∧ (∀ k v, partial !! k = Some v → values s' !! k = Some v)
  ∧ (∀ k, partial !! k = None → values s' !! k = values (form w) !! k)
  ∧ errors s' = errors (form w)
  ∧ isValid s' = isValid (form w)
  ∧ touched s' = touched (form w)
  ∧ isSubmitting s' = isSubmitting (form w)
  ∧ submitCount s' = submitCount (form w)
  ∧ submitError s' = submitError (form w)
  ∧ submitted (exec m w) = submitted w.
Proof.
  intros m s'. subst s' m. unfold exec, outcome, setValues, setFormState.
  cbn [fst snd form values errors touched isSubmitting isValid submitCount
       submitError submitted].
  split_and!; try done.
  - intros k v Hk. by apply lookup_union_Some_l.
  - intros k Hk. by apply lookup_union_r.
Qed.

(** Two [setValues] in a row amount to one with the second argument merged
    over the first, and [setValues({})] leaves the state as it was. *)
Theorem setValues_composes (a b : Values) (w : World) :
  form (exec (setValues b) (exec (setValues a) w))
  = form (exec (setValues (b ∪ a)) w)
  ∧ form (exec (setValues ∅) w) = form w.
Proof.
  unfold exec, setValues, setFormState.
  cbn [snd form values errors touched isSubmitting isValid submitCount submitError].
  split.
  - by rewrite (assoc_L (∪)).
  - rewrite (left_id_L ∅ (∪)). by destruct (form w).
Qed.

(** ** Sequences of callbacks *)

Lemma dispatch_validate_run (hook : UseFormReturn) (w : World) b w' :
  r_validateForm hook w = (Normal b, w') →
  dispatch hook DoValidate w = (Normal tt, w').
Proof. intros H. unfold dispatch, mbind, eff_bind. by rewrite H. Qed.

Section step_summary.

Variable Number : string → float.
Variable st : Step.
Variable w : World.

Let s : FormState := form w.
Let s' : FormState := form (perform Number st w).
Let formState : FormState := default (form w) (step_rendered st).

(** What one callback invocation does to the parts of the state that the
    properties below follow through a whole sequence. *)
Lemma perform_summary :
  ((isValid s = true → some_value truthy_error (errors s) = false) →
   isValid s' = true → some_value truthy_error (errors s') = false)
  ∧ (isSubmitting s = false → isSubmitting s' = false)
  ∧ submitCount s'
    = match step_action st with
      | DoSubmit => (submitCount s + 1)%N
      | DoReset => 0%N
      | _ => submitCount s
      end
  ∧ (∀ k, touched s' !! k
          = match step_action st with
            | DoBlur name => <[name := true]> (touched s) !! k
            | DoSetFieldTouched field isTouched =>
                <[field := default true isTouched]> (touched s) !! k
            | DoReset => None
            | DoSubmit => (λ _, true) <$> values s !! k
            | _ => touched s !! k
            end)
  ∧ (submitted (perform Number st w) = submitted w
     ∨ (step_action st = DoSubmit
        ∧ submitted (perform Number st w)
          = (submitted w ++ [values formState])%list))
  ∧ (step_action st ≠ DoSubmit → submitted (perform Number st w) = submitted w)
  ∧ (validationSchema (step_config st) = None →
     errors s = ∅ → isValid s = true → errors s' = ∅ ∧ isValid s' = true).
Proof.
  subst s s' formState. destruct st as [config stale a]. unfold perform.
  cbn [step_config step_rendered step_action].
  set (rendered := default (form w) stale).
  assert (Hset : ∀ field value,
    let m := setFieldValue (validationSchema config) field value in
    ((isValid (form w) = true → some_value truthy_error (errors (form w)) = false) →
     isValid (form (exec m w)) = true →
     some_value truthy_error (errors (form (exec m w))) = false)
    ∧ isSubmitting (form (exec m w)) = isSubmitting (form w)
    ∧ submitCount (form (exec m w)) = submitCount (form w)
    ∧ touched (form (exec m w)) = touched (form w)
    ∧ submitted (exec m w) = submitted w
    ∧ (validationSchema config = None →
       errors (form (exec m w)) = errors (form w)
       ∧ isValid (form (exec m w)) = isValid (form w))).
  { intros field value m.
    destruct (setFieldValue_updater_shape (validationSchema config) field value
                (form w)) as (errs' & valid' & Hupd & _ & Hinv & Hnone).
    pose proof (setFieldValue_run _ field value w _ Hupd) as Hrun.
    unfold exec. subst m. rewrite Hrun. cbn. split_and!; done. }
  destruct a as [e|name|field value|field isTouched| |partial| |].
  - destruct (Hset (target_name e)
                (if String.eqb (target_type e) "checkbox"
                 then JBool (target_checked e)
                 else if String.eqb (target_type e) "number"
                      then (if String.eqb (target_value e) ""
                            then JString ""
                            else JNumber (Number (target_value e)))
                      else JString (target_value e)))
      as (Hinv & Hsub & Hcount & Htouched & Hcalls & Hnone).
    cbn [dispatch useForm r_handleChange]. unfold handleChange. cbv zeta.
    split_and!; try done.
    + by rewrite Hsub.
    + intros k. by rewrite Htouched.
    + by left.
    + intros Hno He Hv. destruct (Hnone Hno) as [-> ->]. done.
  - cbn. split_and!; try done. by left.
  - destruct (Hset field value)
      as (Hinv & Hsub & Hcount & Htouched & Hcalls & Hnone).
    cbn [dispatch useForm r_setFieldValue].
    split_and!; try done.
    + by rewrite Hsub.
    + intros k. by rewrite Htouched.
    + by left.
    + intros Hno He Hv. destruct (Hnone Hno) as [-> ->]. done.
  - cbn. split_and!; try done. by left.
  - cbn. split_and!; try done. by left.
  - cbn. split_and!; try done. by left.
  - destruct (validateWithSchema_verdict (validationSchema config)
                (values rendered)) as (r & Hr & Hiff & Hempty).
    pose proof (validateForm_run _ rendered w r Hr) as Hrun.
    unfold exec.
    rewrite (dispatch_validate_run (useForm Number config rendered) w _ _ Hrun).
    cbn.
    split_and!; try done.
    + intros _ Hv. by rewrite (Hempty Hv).
    + by left.
    + intros Hno _ _. assert (Hv : vr_isValid r = true) by (apply Hiff; by left).
      by rewrite (Hempty Hv).
  - destruct (validateWithSchema_verdict (validationSchema config)
                (values rendered)) as (r & Hr & Hiff & Hempty).
    pose proof (handleSubmit_run _ (onSubmit config) rendered w r Hr) as Hrun.
    unfold exec. cbn [dispatch useForm r_handleSubmit]. rewrite Hrun.
    assert (Htouched : ∀ k, touched (mark_attempt (form w)) !! k
                            = (λ _, true) <$> values (form w) !! k)
      by (intros k; apply touched_all_lookup).
    destruct (vr_isValid r) eqn:Hv.
    + specialize (Hempty eq_refl).
      destruct (onSubmit config) as [callback|].
      * cbn zeta. destruct (callback (values rendered)) as [[]|error];
          cbn [snd form submitted errors isValid isSubmitting submitCount touched
               end_submitting fail_submitting begin_submitting store_validation];
          rewrite ?Hempty; (split_and!; try done; by right).
      * cbn [snd form submitted errors isValid isSubmitting submitCount touched
             store_validation].
        rewrite ?Hempty. split_and!; try done. by left.
    + cbn [snd form submitted errors isValid isSubmitting submitCount touched
           store_validation].
      split_and!; try done; try (by left).
      * intros _ Hv'. by rewrite Hv in Hv'.
      * intros Hno. exfalso.
        assert (false = true) by (apply Hiff; by left). done.
Qed.

End step_summary.

Lemma run_invariant (Number : string → float) (P : FormState → Prop)
    (steps : list Step) (w : World) :
  (∀ st w, st ∈ steps → P (form w) → P (form (perform Number st w))) →
  P (form w) → P (form (run Number steps w)).
Proof.
  revert w. induction steps as [|st steps IH]; intros w Hstep Hw; [done|].
  unfold run. cbn [foldl]. apply IH.
  - intros st' w' Hin. apply Hstep, elem_of_cons. by right.
  - apply Hstep; [apply elem_of_cons; by left | done].
Qed.

(** Only [handleSubmit] and [resetForm] change [submitCount]: the first adds
    one, the second sets it to 0, and every other callback leaves it as it
    is, whatever render it belongs to. *)
Theorem submitCount_follows_submit_and_reset
    (Number : string → float) (st : Step) (w : World) :
  submitCount (form (perform Number st w))
  = match step_action st with
    | DoSubmit => (submitCount (form w) + 1)%N
    | DoReset => 0%N
    | _ => submitCount (form w)
    end.
Proof. apply (perform_summary Number st w). Qed.

(** Only four callbacks change [touched]: [handleBlur] and
    [setFieldTouched] set the flag of their field, [resetForm] empties the
    object, and [handleSubmit] replaces it by one that marks exactly the keys
    of [values]; changing a value, [setValues] and [validateForm] leave it
    as it is. *)
Theorem touched_follows_blur_reset_submit
    (Number : string → float) (st : Step) (w : World) (k : string) :
  touched (form (perform Number st w)) !! k
  = match step_action st with
    | DoBlur name => <[name := true]> (touched (form w)) !! k
    | DoSetFieldTouched field isTouched =>
        <[field := default true isTouched]> (touched (form w)) !! k
    | DoReset => None
    | DoSubmit => (λ _, true) <$> values (form w) !! k
    | _ => touched (form w) !! k
    end.
Proof. apply (perform_summary Number st w). Qed.

(** The submit callback is invoked by [handleSubmit] only: every other
    callback leaves the list of calls as it is, and one [handleSubmit] adds
    at most one call, whose argument is the values its render saw. *)
Theorem callback_invoked_by_handleSubmit_only
    (Number : string → float) (st : Step) (w : World) :
  (step_action st ≠ DoSubmit → submitted (perform Number st w) = submitted w)
  ∧ (submitted (perform Number st w) = submitted w
     ∨ submitted (perform Number st w)
       = (submitted w ++ [values (default (form w) (step_rendered st))])%list).
Proof.
  destruct (perform_summary Number st w) as (_ & _ & _ & _ & Hcalls & Hother & _).
  split; [exact Hother|]. destruct Hcalls as [H|[_ H]]; [by left | by right].
Qed.

(** After any sequence of callbacks on a freshly mounted hook, whatever
    configuration each render had and however stale it was, a state with
    [isValid = true] holds no non-empty error message. *)
Theorem valid_state_holds_no_message
    (Number : string → float) (config : UseFormConfig) (steps : list Step)
    (k msg : string) :
  let s := form (run Number steps (mount config)) in
  isValid s = true → errors s !! k = Some (Some msg) → msg = "".
Proof.
  intros s Hvalid Hk.
  assert (Hinv : isValid s = true → some_value truthy_error (errors s) = false).
  { subst s.
    apply (run_invariant Number
             (λ s, isValid s = true → some_value truthy_error (errors s) = false)).
    - intros st w _. apply (perform_summary Number st w).
    - done. }
  pose proof (proj1 (some_value_false _ _) (Hinv Hvalid) k _ Hk) as Hfalse.
  exact (proj1 (truthy_error_false (Some msg)) Hfalse msg eq_refl).
Qed.

Lemma valid_state_holds_no_message_witness :
  let steps :=
    [mkStep Examples.silent_config None DoValidate;
     mkStep Examples.silent_config None
       (DoSetValues {[ "email" := JString "bob@x.com" ]});
     mkStep Examples.silent_config None
       (DoSetFieldValue "name" (JString "Bob"))] in
  let s := form (run Examples.Number_table steps (mount Examples.silent_config)) in
  isValid s = true ∧ errors s !! "email" = Some (Some "") ∧ "" = "".
Proof.
  intros steps s.
  assert (Hvalid : isValid s = true) by (vm_compute; reflexivity).
  assert (Hk : errors s !! "email" = Some (Some "")) by (vm_compute; reflexivity).
  split_and!; [exact Hvalid | exact Hk |].
  exact (valid_state_holds_no_message Examples.Number_table
           Examples.silent_config steps "email" "" Hvalid Hk).
Defined.

(** After any sequence of callbacks on a freshly mounted hook, each run until
    its submission has settled, [isSubmitting] is [false]. *)
Theorem settled_hook_is_not_submitting
    (Number : string → float) (config : UseFormConfig) (steps : list Step) :
  isSubmitting (form (run Number steps (mount config))) = false.
Proof.
  apply (run_invariant Number (λ s, isSubmitting s = false)); [|done].
  intros st w _. apply (perform_summary Number st w).
Qed.

(** A hook that is never given a schema never reports an error and never
    becomes invalid, whatever callbacks are invoked on it. *)
Theorem hook_without_schema_stays_valid
    (Number : string → float) (config : UseFormConfig) (steps : list Step) :
  (∀ st, st ∈ steps → validationSchema (step_config st) = None) →
  let s := form (run Number steps (mount config)) in
  errors s = ∅ ∧ isValid s = true.
Proof.
  intros Hnone.
  apply (run_invariant Number (λ s, errors s = ∅ ∧ isValid s = true)); [|done].
  intros st w Hin [He Hv].
  by apply (perform_summary Number st w); [apply Hnone| |].
Qed.

Lemma hook_without_schema_stays_valid_witness :
  let steps :=
    [mkStep Examples.first_config None (DoSetFieldValue "name" (JString ""));
     mkStep Examples.later_config None DoSubmit;
     mkStep Examples.first_config None DoValidate] in
  let s := form (run Examples.Number_table steps (mount Examples.first_config)) in
  errors s = ∅ ∧ isValid s = true.
Proof.
  intros steps.
  apply (hook_without_schema_stays_valid Examples.Number_table
           Examples.first_config steps).
  intros st Hin. subst steps.
  repeat (apply elem_of_cons in Hin as [->|Hin]; [reflexivity|]).
  by apply elem_of_nil in Hin.
Defined.

(** ** The states a submission goes through *)

(** When validation succeeds and a callback is configured, [handleSubmit]
    writes four states: the attempt, the validation result, then a state
    with [isSubmitting = true] and no [submitError], written before the
    callback is invoked, and last the settled state, which has no field
    errors, [isValid = true] and the values and [touched] object of the
    second state. *)
Theorem handleSubmit_states_in_flight
    (schema : option ZodSchema) (callback : SubmitCallback)
    (rendered : FormState) (w : World) (r : ValidationResult) :
  validateWithSchema schema (values rendered) = Normal r →
  vr_isValid r = true →
  let w' := exec (handleSubmit schema (Some callback) rendered) w in
  let s3 := begin_submitting (store_validation r (mark_attempt (form w))) in
  written w'
  = (written w ++ [mark_attempt (form w);
                   store_validation r (mark_attempt (form w));
                   s3; form w'])%list
  ∧ isSubmitting s3 = true
  ∧ submitError s3 = None
  ∧ errors (form w') = ∅
  ∧ isValid (form w') = true
  ∧ values (form w') = values (form w)
  ∧ touched (form w') = touched (mark_attempt (form w)).
Proof.
  intros Hr Hvalid w' s3.
  destruct (validateWithSchema_verdict schema (values rendered))
    as (r' & Hr' & _ & Hempty).
  rewrite Hr in Hr'. injection Hr' as <-. specialize (Hempty Hvalid).
  pose proof (handleSubmit_run schema (Some callback) rendered w r Hr) as Hrun.
  rewrite Hvalid in Hrun. cbn zeta in Hrun.
  subst w' s3. unfold exec. rewrite Hrun. clear Hrun.
  destruct (callback (values rendered)) as [[]|error]; cbn; by rewrite Hempty, Hvalid.
Qed.

Lemma handleSubmit_states_in_flight_witness :
  let fresh : FormState :=
    useState_initial {[ "password" := JString "Password123" ]} in
  let w := mkWorld fresh [] [] in
  let w' := exec (handleSubmit (Some Examples.password_schema)
                    (Some Examples.succeeding_submit) fresh) w in
  length (written w') = 4%nat ∧ isValid (form w') = true.
Proof.
  intros fresh w w'.
  destruct (handleSubmit_states_in_flight (Some Examples.password_schema)
              Examples.succeeding_submit fresh w (mkValidation true ∅))
    as (Hw & _ & _ & _ & Hv & _).
  - vm_compute. reflexivity.
  - reflexivity.
  - split; [|exact Hv]. unfold w'. rewrite Hw. reflexivity.
Defined.

(** ** The sample component *)

(** [handleDemoData], from any state and with any configuration: the call
    completes normally; every key of the demo data ends with its demo value
    and every other key with the initial value of the configuration; errors
    and [touched] are empty, [submitCount] is 0 and [isValid] is [true],
    without the schema having been run.  With the initial values of the
    sample component, the values are exactly the demo data. *)
Theorem handleDemoData_fills_form
    (Number : string → float) (config : UseFormConfig)
    (formState : FormState) (w : World) :
  let m := SampleForm.handleDemoData (useForm Number config formState) in
  let s' := form (exec m w) in
  outcome m w = Normal tt
  ∧ values s' = SampleForm.demoData ∪ initialValues config
  ∧ (∀ k v, SampleForm.demoData !! k = Some v → values s' !! k = Some v)
  ∧ (∀ k, SampleForm.demoData !! k = None →
       values s' !! k = initialValues config !! k)
  ∧ errors s' = ∅
  ∧ touched s' = ∅
  ∧ isValid s' = true
  ∧ isSubmitting s' = false
  ∧ submitCount s' = 0%N
  ∧ submitError s' = None
  ∧ submitted (exec m w) = submitted w
  ∧ (initialValues config = SampleForm.initialValues →
       values s' = SampleForm.demoData).
Proof.
  intros m s'. subst s' m.
  unfold exec, outcome, SampleForm.handleDemoData, mbind, eff_bind.
  cbn [useForm r_resetForm r_setValues].
  unfold resetForm, setValues, setFormState.
  cbn [fst snd form values errors touched isSubmitting isValid submitCount
       submitError submitted].
  split_and!; try done.
  - intros k v Hk. by apply lookup_union_Some_l.
  - intros k Hk. by apply lookup_union_r.
  - intros ->. apply map_eq. intros k.
    destruct (SampleForm.demoData !! k) as [v|] eqn:Hk.
    + by apply lookup_union_Some_l.
    + rewrite lookup_union_r by done.
      destruct (SampleForm.initialValues !! k) as [v0|] eqn:Hk0; [|done].
      exfalso. apply not_elem_of_dom in Hk.
      assert (Hdom : dom SampleForm.demoData = dom SampleForm.initialValues)
        by (vm_compute; reflexivity).
      rewrite Hdom in Hk. apply Hk, elem_of_dom. by exists v0.
Qed.

Lemma showError_truthy (s : FormState) (field : string) :
  SampleForm.truthy (SampleForm.showError s field) = true
  ↔ touched s !! field = Some true
    ∧ ∃ msg, errors s !! field = Some (Some msg) ∧ msg ≠ "".
Proof.
  unfold SampleForm.showError.
  destruct (touched s !! field) as [[|]|]; cbn;
    [|split; [done | by intros [? _]] ..].
  destruct (errors s !! field) as [[msg|]|]; cbn.
  - rewrite truthy_string_true. split.
    + intros H. split; [done|]. by exists msg.
    + by intros (_ & msg' & [= <-] & H).
  - split; [done | by intros (_ & msg & ? & _)].
  - split; [done | by intros (_ & msg & ? & _)].
Qed.

(** After [handleSubmit], the component shows an error for a field exactly
    when the field is a key of [values] and the validation that the call ran
    recorded a non-empty message for it, whether or not the field had been
    blurred before. *)
Theorem showError_after_handleSubmit
    (schema : option ZodSchema) (cb : option SubmitCallback)
    (rendered : FormState) (w : World) (field : string) :
  let s' := form (exec (handleSubmit schema cb rendered) w) in
  ∃ r, validateWithSchema schema (values rendered) = Normal r
       ∧ (SampleForm.truthy (SampleForm.showError s' field) = true
          ↔ is_Some (values (form w) !! field)
            ∧ ∃ msg, fieldErrors r !! field = Some (Some msg) ∧ msg ≠ "").
Proof.
  intros s'.
  destruct (validateWithSchema_total schema (values rendered)) as [r Hr].
  exists r. split; [done|].
  assert (Hs : touched s' = touched (mark_attempt (form w))
               ∧ errors s' = fieldErrors r).
  { pose proof (handleSubmit_run schema cb rendered w r Hr) as Hrun.
    subst s'. unfold exec. rewrite Hrun.
    destruct (vr_isValid r), cb as [callback|]; cbn zeta;
      try destruct (callback (values rendered)) as [[]|error]; done. }
  destruct Hs as [Ht He].
  rewrite showError_truthy, Ht, He.
  cbn [touched mark_attempt]. rewrite touched_all_lookup.
  destruct (values (form w) !! field) as [v|]; cbn.
  - split; [intros [_ H]; split; [by eexists | done] | intros [_ H]; done].
  - split; [by intros [? _] | by intros [[? ?] _]].
Qed.

(** Changing a value never makes an error visible: for a field that is not
    marked as touched, the component shows no error after [setFieldValue],
    whatever the validation recorded. *)
Theorem setFieldValue_keeps_errors_hidden
    (schema : option ZodSchema) (field : string) (value : JsValue)
    (w : World) (k : string) :
  touched (form w) !! k ≠ Some true →
  SampleForm.truthy
    (SampleForm.showError (form (exec (setFieldValue schema field value) w)) k)
  = false.
Proof.
  intros Hk. apply not_true_iff_false. rewrite showError_truthy.
  destruct (setFieldValue_updater_shape schema field value (form w))
    as (errs' & valid' & Hupd & _).
  unfold exec. rewrite (setFieldValue_run schema field value w _ Hupd).
  cbn [snd form touched]. by intros [? _].
Qed.

Lemma setFieldValue_keeps_errors_hidden_witness :
  let w := mount Examples.password_config in
  let w' := exec (setFieldValue (Some Examples.password_schema) "password"
                    (JString "abc")) w in
  errors (form w') !! "password"
  = Some (Some "Password must be at least 8 characters")
  ∧ SampleForm.truthy (SampleForm.showError (form w') "password") = false.
Proof.
  intros w w'. split; [vm_compute; reflexivity|].
  apply (setFieldValue_keeps_errors_hidden (Some Examples.password_schema)
           "password" (JString "abc") w "password").
  vm_compute. discriminate.
Defined.
